(** * combine_dseg: relabelling of a discrete segmentation volume

    A shallow embedding of [combine_dseg_labels] (src/combine_dseg.py) and
    the properties of its three stages: building the original -> new label
    dictionary, choosing the output dtype, and applying the dictionary to
    the voxel array. *)

From stdpp Require Import base option list gmap strings.
From Stdlib Require Import ZArith Lia Ascii.

Local Open Scope Z_scope.

(** ** Python values and exceptions *)

(** The exceptions the modelled fragment can raise. *)
Inductive exn : Set :=
  | TypeError
  | ValueError
  | OverflowError
  | OSError
  | SyntaxError
  | HeaderDataError
  | ImageFileError.

Inductive result (A : Type) : Type :=
  | Ok (a : A)
  | Raise (e : exn).
Arguments Ok {A} a.
Arguments Raise {A} e.

Definition is_ok {A} (r : result A) : bool :=
  match r with Ok _ => true | Raise _ => false end.

(** The label values a parsed grouping can hold (what [json.loads] or
    [ast.literal_eval] produce at a label position): integers, finite
    floats and strings.  A finite float is the dyadic rational
    [m * 2 ^ e]. *)
Inductive pyval : Set :=
  | PyInt (z : Z)
  | PyFloat (m e : Z)
  | PyStr (s : string).

Module PyInt.

(** The whitespace [int()] skips around the digits of an ASCII [str]:
    tab, line feed, vertical tab, form feed, carriage return and space. *)
Definition is_space (c : ascii) : bool :=
  let n := Z.of_nat (nat_of_ascii c) in
  ((9 <=? n) && (n <=? 13)) || (n =? 32).

Definition digit_of (c : ascii) : option Z :=
  let n := Z.of_nat (nat_of_ascii c) in
  if (48 <=? n) && (n <=? 57) then Some (n - 48) else None.

Fixpoint lstrip (s : list ascii) : list ascii :=
  match s with
  | c :: s' => if is_space c then lstrip s' else s
  | [] => []
  end.

Definition strip (s : list ascii) : list ascii :=
  rev (lstrip (rev (lstrip s))).

(** Decimal digits, a single underscore allowed between two digits. *)
Fixpoint digits (acc : Z) (after_digit : bool) (s : list ascii) : option Z :=
  match s with
  | [] => if after_digit then Some acc else None
  | c :: s' =>
      match digit_of c with
      | Some d => digits (10 * acc + d) true s'
      | None =>
          if Ascii.eqb c "_"%char && after_digit
          then digits acc false s'
          else None
      end
  end.

Definition of_chars (s : list ascii) : option Z :=
  match strip s with
  | c :: s' =>
      if Ascii.eqb c "-"%char then Z.opp <$> digits 0 false s'
      else if Ascii.eqb c "+"%char then digits 0 false s'
      else digits 0 false (c :: s')
  | [] => None
  end.

(** CPython's default limit on the number of digits of a decimal string. *)
Definition max_str_digits : nat := 4300.

Fixpoint count_digits (s : list ascii) : nat :=
  match s with
  | [] => 0
  | c :: s' => (if digit_of c then 1 else 0) + count_digits s'
  end.

(** [int(str)] in base 10, on ASCII text. *)
Definition of_string (s : string) : result Z :=
  let cs := String.list_ascii_of_string s in
  if (max_str_digits <? count_digits cs)%nat then Raise ValueError
  else
    match of_chars cs with
    | Some z => Ok z
    | None => Raise ValueError
    end.

(** [int(float)]: truncation towards zero of [m * 2 ^ e]. *)
Definition of_float (m e : Z) : Z :=
  if 0 <=? e then m * 2 ^ e else Z.quot m (2 ^ (- e)).

(** Whether the float [m * 2 ^ e] has an integral value. *)
Definition float_is_integer (m e : Z) : bool :=
  (0 <=? e) || (Z.rem m (2 ^ (- e)) =? 0).

End PyInt.

(** The builtin [int(x)]. *)
Definition py_int (x : pyval) : result Z :=
  match x with
  | PyInt z => Ok z
  | PyFloat m e => Ok (PyInt.of_float m e)
  | PyStr s => PyInt.of_string s
  end.

(** ** The label dictionary

    [mapping] is a Python dict whose keys and values are always [int]s.  A
    dict iterates in insertion order and assigning to an existing key keeps
    the key's position, so it is an association list with distinct keys. *)
Definition dict : Set := list (Z * Z).

Fixpoint dict_get (k : Z) (d : dict) : option Z :=
  match d with
  | [] => None
  | (k', v) :: d' => if Z.eqb k k' then Some v else dict_get k d'
  end.

(** [d[k] = v] *)
Fixpoint dict_set (k v : Z) (d : dict) : dict :=
  match d with
  | [] => [(k, v)]
  | (k', v') :: d' =>
      if Z.eqb k k' then (k', v) :: d' else (k', v') :: dict_set k v d'
  end.

(** The key an arbitrary Python value is looked up under in a dict with
    [int] keys: a value hashes and compares equal to an [int] key only if
    it is that integer ([2.0 == 2], but [2.5] and ['2'] equal no [int]). *)
Definition key_of (x : pyval) : option Z :=
  match x with
  | PyInt z => Some z
  | PyFloat m e =>
      if PyInt.float_is_integer m e then Some (PyInt.of_float m e) else None
  | PyStr _ => None
  end.

(** [d[x]] for an arbitrary value [x]; [x in d] is whether it is found. *)
Definition dict_lookup (x : pyval) (d : dict) : option Z :=
  k ← key_of x; dict_get k d.

Definition dict_keys (d : dict) : list Z := d.*1.
Definition dict_values (d : dict) : list Z := d.*2.

(** ** A state and exception monad

    A Python statement reads and updates the state it runs in and either
    completes with a value or raises; the state reached when an exception
    is raised is kept. *)
Module Monad.

Definition M (S A : Type) : Type := S → result A * S.

Definition ret {S A} (a : A) : M S A := λ s, (Ok a, s).

Definition bind {S A B} (m : M S A) (k : A → M S B) : M S B :=
  λ s, match m s with
       | (Ok a, s') => k a s'
       | (Raise e, s') => (Raise e, s')
       end.

Definition raise {S A} (e : exn) : M S A := λ s, (Raise e, s).

Definition lift {S A} (r : result A) : M S A := λ s, (r, s).

Definition gets {S A} (f : S → A) : M S A := λ s, (Ok (f s), s).

Definition modify {S} (f : S → S) : M S unit := λ s, (Ok tt, f s).

(** [for x in xs: body(x)] *)
Fixpoint for_each {S A} (xs : list A) (body : A → M S unit) : M S unit :=
  match xs with
  | [] => ret tt
  | x :: xs' => bind (body x) (λ _, for_each xs' body)
  end.

End Monad.
Import Monad.

Declare Scope py_scope.
Delimit Scope py_scope with py.
Notation "'let*' x ':=' m 'in' k" := (bind m (λ x, k))
  (at level 10, x name, m at level 100, k at level 200) : py_scope.
Local Open Scope py_scope.

(** [enumerate(xs)] *)
Fixpoint enumerate_from {A} (i : Z) (xs : list A) : list (Z * A) :=
  match xs with
  | [] => []
  | x :: xs' => (i, x) :: enumerate_from (i + 1) xs'
  end.
Definition enumerate {A} (xs : list A) : list (Z * A) := enumerate_from 0 xs.

(** ** Building the mapping (lines 111-129) *)

(** One call of [warnings.warn]: the message interpolates the conflicting
    label and the new label it is already mapped to. *)
Record warning : Type := Warning { w_label : pyval; w_target : Z }.

(** The two shapes of [groups], told apart by [isinstance(groups, Mapping)].
    A mapping is listed in the iteration order of its [items()]. *)
Inductive groups_arg : Type :=
  | GroupsMapping (entries : list (pyval * list pyval))
  | GroupsSequence (groups : list (list pyval)).

(** The variables the construction loop works on. *)
Record builder : Type := Builder { mapping : dict; warned : list warning }.

Definition warnings_warn (w : warning) : M builder unit :=
  modify (λ b, Builder (mapping b) (warned b ++ [w])).

Definition set_mapping (d : dict) : M builder unit :=
  modify (λ b, Builder d (warned b)).

(** Lines 114-119.  The membership test and [mapping[lab]] use [lab] as it
    is; [mapping[int(lab)] = int(new_label)] evaluates its right-hand side
    first. *)
Definition build_from_mapping (entries : list (pyval * list pyval)) : M builder unit :=
  for_each entries (λ '(new_label, originals),
    for_each originals (λ lab,
      let* m := gets mapping in
      match dict_lookup lab m with
      | Some target => warnings_warn (Warning lab target)
      | None =>
          let* v := lift (py_int new_label) in
          let* k := lift (py_int lab) in
          set_mapping (dict_set k v m)
      end)).

(** Lines 122-129.  [start_label] is an [int], so [int(start_label + idx)]
    is the sum itself. *)
Definition build_from_sequence (start_label : Z) (groups : list (list pyval)) : M builder unit :=
  for_each (enumerate groups) (λ '(idx, grp),
    let new_label := start_label + idx in
    for_each grp (λ lab,
      let* lab := lift (py_int lab) in
      let* m := gets mapping in
      match dict_get lab m with
      | Some target => warnings_warn (Warning (PyInt lab) target)
      | None => set_mapping (dict_set lab new_label m)
      end)).

Definition build_mapping (groups : groups_arg) (start_label : Z) : M builder unit :=
  match groups with
  | GroupsMapping entries => build_from_mapping entries
  | GroupsSequence gs => build_from_sequence start_label gs
  end.

(** The construction started from [mapping = {}]. *)
Definition run_build (groups : groups_arg) (start_label : Z) : result unit * builder :=
  build_mapping groups start_label (Builder [] []).

Definition ints (l : list Z) : list pyval := PyInt <$> l.

Example first_wins_run :
  run_build (GroupsSequence [ints [1; 2]; ints [2; 3]]) 1
  = (Ok tt, Builder [(1, 1); (2, 1); (3, 2)] [Warning (PyInt 2) 1]).
Proof. reflexivity. Qed.

Example string_labels_run :
  run_build (GroupsMapping [(PyStr "1", [PyInt 17; PyStr " 5_3 "])]) 1
  = (Ok tt, Builder [(17, 1); (53, 1)] []).
Proof. reflexivity. Qed.

(** ** Choosing the output dtype (lines 131-141) *)

(** The numpy dtypes: the four [_dtype_from_str] names and whatever else
    [np.dtype(s)] accepts. *)
Inductive dtype : Set :=
  | int8
  | int16
  | int32
  | int64
  | dtype_other (name : string).

(** [np.iinfo(d).min] and [np.iinfo(d).max] *)
Definition iinfo (d : dtype) : option (Z * Z) :=
  match d with
  | int8 => Some (-128, 127)
  | int16 => Some (-32768, 32767)
  | int32 => Some (-2147483648, 2147483647)
  | int64 => Some (-9223372036854775808, 9223372036854775807)
  | dtype_other _ => None
  end.

Definition iinfo_max (d : dtype) : option Z := snd <$> iinfo d.

(** [max(xs)] of a non-empty list *)
Definition py_max (x : Z) (xs : list Z) : Z := foldl Z.max x xs.

(** [max(mapping.values()) if mapping else 0] *)
Definition max_new (m : dict) : Z :=
  match dict_values m with
  | [] => 0
  | v :: vs => py_max v vs
  end.

Definition reserve (preserve_zero : bool) : Z := if preserve_zero then 1 else 0.

Definition needed_max (m : dict) (preserve_zero : bool) : Z :=
  Z.max (max_new m) (reserve preserve_zero).

Definition select_dtype (out_dtype : option dtype) (needed : Z) : dtype :=
  match out_dtype with
  | Some d => d
  | None =>
      if needed <=? 127 then int8
      else if needed <=? 32767 then int16
      else int32
  end.

(** ** Applying the mapping to arrays (lines 143-150) *)

(** [out[data == orig_label] = v], elementwise on arrays of one shape *)
Definition assign_where (data : list Z) (orig_label v : Z) (out : list Z) : list Z :=
  zip_with (λ d o, if Z.eqb d orig_label then v else o) data out.

(** [np.zeros(shape)]: one zero per element of the shape *)
Definition np_zeros (n : nat) : list Z := replicate n 0.

Example assign_where_run :
  assign_where [0; 17; 53; 17; 4] 17 1 (np_zeros 5) = [0; 1; 0; 1; 0].
Proof. reflexivity. Qed.

(** ** Volumes and the object store *)

Definition loc : Set := positive.

Section Volume.

(** A stored voxel sample, the affine matrix, and the header entries
    other than the data type are opaque here. *)
Context {raw affine_t fields_t : Type}.

Record header : Type := Header { data_dtype : dtype; fields : fields_t }.

(** A [Nifti1Image] refers to its voxel array and its header, which are
    mutable objects. *)
Record image : Type := Image { dataobj : loc; affine : affine_t; header_ref : loc }.

Inductive cell : Type :=
  | Stored (shape : list nat) (xs : list raw)
  | Array (d : dtype) (shape : list nat) (xs : list Z)
  | HeaderObj (h : header).

Record world : Type :=
  World { heap : gmap loc cell; warnings : list warning; saved : list (string * image) }.

Inductive dseg_arg : Type :=
  | DsegPath (path : string)
  | DsegImage (img : image)
  | DsegOther.

(** What nibabel and numpy do for the function. *)

(** A sample after [get_fdata(dtype=np.float32).astype(np.int32)]. *)
Variable to_int32 : raw → Z.
(** An element of an integer array of dtype [d] seen as a sample. *)
Variable sample_of : dtype → Z → raw.
(** A Python [int] stored into an array of dtype [d]; [None] when numpy
    raises [OverflowError] for it. *)
Variable np_cast : dtype → Z → option Z.
(** [nib.load(path)] *)
Variable nib_load : string → result image.

Definition alloc (c : cell) : M world loc :=
  λ w, let l := fresh (dom (heap w)) in
       (Ok l, World (<[l := c]> (heap w)) (warnings w) (saved w)).

Definition read (l : loc) : M world cell :=
  λ w, match heap w !! l with
       | Some c => (Ok c, w)
       | None => (Raise OSError, w)
       end.

Definition write (l : loc) (c : cell) : M world unit :=
  modify (λ w, World (<[l := c]> (heap w)) (warnings w) (saved w)).

(** Lines 102-107 *)
Definition load (dseg_input : dseg_arg) : result image :=
  match dseg_input with
  | DsegPath path => nib_load path
  | DsegImage img => Ok img
  | DsegOther => Raise TypeError
  end.

(** The shape and the converted voxels of a voxel array. *)
Definition int32_voxels (c : cell) : result (list nat * list Z) :=
  match c with
  | Stored shape xs => Ok (shape, to_int32 <$> xs)
  | Array d shape xs => Ok (shape, (to_int32 ∘ sample_of d) <$> xs)
  | HeaderObj _ => Raise TypeError
  end.

(** Line 109: a new [int32] array, held in the local [data] and never
    written to afterwards. *)
Definition get_fdata_astype_int32 (img : image) : M world (list nat * list Z) :=
  let* c := read (dataobj img) in
  lift (int32_voxels c).

(** Lines 112-129, with the warnings going to the warning stream. *)
Definition build (groups : groups_arg) (start_label : Z) : M world dict :=
  λ w, let '(r, b) := run_build groups start_label in
       (match r with Ok _ => Ok (mapping b) | Raise e => Raise e end,
        World (heap w) (warnings w ++ warned b) (saved w)).

(** Line 150: [out[data == orig_label] = new_label] *)
Definition assign_masked (out : loc) (data : list Z) (orig_label new_label : Z) : M world unit :=
  let* c := read out in
  match c with
  | Array d shape xs =>
      match np_cast d new_label with
      | Some v => write out (Array d shape (assign_where data orig_label v xs))
      | None => raise OverflowError
      end
  | _ => raise TypeError
  end.

(** Lines 147-150 *)
Definition apply_mapping (out : loc) (data : list Z) (preserve_zero : bool) (m : dict) : M world unit :=
  for_each m (λ '(orig_label, new_label),
    if Z.eqb orig_label 0 && preserve_zero then ret tt
    else assign_masked out data orig_label new_label).

(** [img.header.copy()] *)
Definition header_copy (img : image) : M world loc :=
  let* c := read (header_ref img) in
  match c with
  | HeaderObj h => alloc (HeaderObj h)
  | _ => raise TypeError
  end.

Definition set_data_dtype (img : image) (d : dtype) : M world unit :=
  let* c := read (header_ref img) in
  match c with
  | HeaderObj h => write (header_ref img) (HeaderObj (Header d (fields h)))
  | _ => raise TypeError
  end.

(** [nib.save(img, path)], recorded as the list of files written. *)
Definition nib_save (img : image) (path : string) : M world unit :=
  modify (λ w, World (heap w) (warnings w) (saved w ++ [(path, img)])).

Definition combine_dseg_labels
    (dseg_input : dseg_arg) (groups : groups_arg) (output_path : option string)
    (start_label : Z) (preserve_zero : bool) (out_dtype : option dtype) : M world image :=
  let* img := lift (load dseg_input) in
  let* data := get_fdata_astype_int32 img in
  let* mapping := build groups start_label in
  let out_dtype := select_dtype out_dtype (needed_max mapping preserve_zero) in
  let* out := alloc (Array out_dtype data.1 (np_zeros (length data.2))) in
  let* _ := apply_mapping out data.2 preserve_zero mapping in
  let* hdr := header_copy img in
  let new_img := Image out (affine img) hdr in
  let* _ := set_data_dtype new_img out_dtype in
  let* _ :=
    match output_path with
    | Some path => if String.eqb path "" then ret tt else nib_save new_img path
    | None => ret tt
    end in
  ret new_img.

(** The files an [output_path] makes the call write. *)
Definition written (output_path : option string) (img : image) : list (string * image) :=
  match output_path with
  | Some path => if String.eqb path "" then [] else [(path, img)]
  | None => []
  end.

End Volume.

(** ** A concrete environment

    Integer samples read through binary32, and numpy's two behaviours for
    an out-of-range Python [int] (raise, or wrap around as before 2.0). *)
Module Env.

(** The integer nearest to [n] that binary32 represents (24 significant
    bits, ties to even). *)
Definition f32_round (n : Z) : Z :=
  let a := Z.abs n in
  let sh := Z.log2 a + 1 - 24 in
  if sh <=? 0 then n
  else
    let q := Z.shiftr a sh in
    let r := Z.land a (Z.ones sh) in
    let half := Z.shiftl 1 (sh - 1) in
    let q' := if (half <? r) || ((r =? half) && Z.odd q) then q + 1 else q in
    Z.sgn n * Z.shiftl q' sh.

(** [astype(np.int32)] of an integral float; out of range it gives the
    x86 "integer indefinite" value. *)
Definition astype_int32 (x : Z) : Z :=
  if (-2147483648 <=? x) && (x <=? 2147483647) then x else -2147483648.

Definition to_int32 (n : Z) : Z := astype_int32 (f32_round n).

Definition sample_of (d : dtype) (z : Z) : Z := z.

Definition np_cast_strict (d : dtype) (z : Z) : option Z :=
  match iinfo d with
  | Some (lo, hi) => if (lo <=? z) && (z <=? hi) then Some z else None
  | None => Some z
  end.

Definition np_cast_wrap (d : dtype) (z : Z) : option Z :=
  match iinfo d with
  | Some (lo, hi) => Some ((z - lo) mod (hi - lo + 1) + lo)
  | None => Some z
  end.

Definition nib_load (path : string) : result (@image unit) := Raise OSError.

(** A world holding one volume: voxels at location 1, header at 2. *)
Definition volume (xs : list Z) : @world Z unit unit :=
  World {[ 1%positive := Stored [length xs] xs;
           2%positive := HeaderObj (Header (dtype_other "float32") tt) ]} [] [].

Definition img : @image unit := Image 1%positive tt 2%positive.

(** A volume with background, mapped and unmapped labels, and a sample
    that binary32 does not represent. *)
Definition vol : @world Z unit unit := volume [0; 17; 53; 0; 4; 16777217].

Abbreviation run :=
  (combine_dseg_labels (fields_t := unit) to_int32 sample_of np_cast_strict nib_load).

End Env.

(** * Properties *)

(** ** The dictionary *)

Lemma dict_get_None k (d : dict) : dict_get k d = None ↔ k ∉ dict_keys d.
Proof.
  unfold dict_keys. induction d as [|[k' v] d IH]; simpl.
  - split; [intros _; apply not_elem_of_nil | done].
  - rewrite not_elem_of_cons. destruct (Z.eqb_spec k k') as [->|Hne].
    + split; [done | intros [? _]; done].
    + rewrite IH. tauto.
Qed.

Lemma dict_get_is_Some k (d : dict) : is_Some (dict_get k d) ↔ k ∈ dict_keys d.
Proof.
  rewrite <- not_eq_None_Some, dict_get_None.
  destruct (decide (k ∈ dict_keys d)); tauto.
Qed.

Lemma dict_get_app k (d1 d2 : dict) :
  dict_get k (d1 ++ d2)
  = match dict_get k d1 with Some v => Some v | None => dict_get k d2 end.
Proof.
  induction d1 as [|[k' v'] d1 IH]; simpl; [done|].
  by destruct (Z.eqb k k').
Qed.

Lemma dict_get_set l k v (d : dict) :
  dict_get l (dict_set k v d) = if Z.eqb l k then Some v else dict_get l d.
Proof.
  induction d as [|[k' v'] d IH]; simpl.
  - done.
  - destruct (Z.eqb_spec k k') as [->|Hne]; simpl.
    + by destruct (Z.eqb l k').
    + rewrite IH. destruct (Z.eqb_spec l k') as [->|?]; [|done].
      destruct (Z.eqb_spec k' k); [congruence | done].
Qed.

(** Assigning to a new key appends it; assigning to a present key keeps
    the keys as they are. *)
Lemma dict_set_keys k v (d : dict) :
  dict_keys (dict_set k v d)
  = match dict_get k d with
    | Some _ => dict_keys d
    | None => dict_keys d ++ [k]
    end.
Proof.
  unfold dict_keys. induction d as [|[k' v'] d IH]; [done|].
  cbn [dict_set dict_get].
  destruct (Z.eqb_spec k k') as [->|Hne]; rewrite !fmap_cons; [done|].
  rewrite IH. by destruct (dict_get k d).
Qed.

Lemma dict_set_NoDup k v (d : dict) :
  NoDup (dict_keys d) → NoDup (dict_keys (dict_set k v d)).
Proof.
  intros Hd. rewrite dict_set_keys.
  destruct (dict_get k d) eqn:E; [done|].
  apply NoDup_app. split_and!; [done | | apply NoDup_singleton].
  intros x Hx ->%list_elem_of_singleton. by apply dict_get_None in E.
Qed.


(** ** Loops *)

Lemma bind_Ok {S A B} (m : M S A) (k : A → M S B) s b s' :
  bind m k s = (Ok b, s') → ∃ a s1, m s = (Ok a, s1) ∧ k a s1 = (Ok b, s').
Proof.
  unfold bind. destruct (m s) as [[a|e] s1]; [eauto | done].
Qed.

(** A property of the state kept by every iteration is kept by the loop,
    however it ends. *)
Lemma for_each_invariant {S A} (P : S → Prop) (xs : list A) (body : A → M S unit) s :
  (∀ x s, P s → P (body x s).2) → P s → P (for_each xs body s).2.
Proof.
  intros Hbody. revert s. induction xs as [|x xs IH]; intros s Hs; simpl; [done|].
  unfold bind. specialize (Hbody x s Hs).
  destruct (body x s) as [[[]|e] s1]; simpl in *; auto.
Qed.

(** ** The construction as a fold over claims

    A claim is one visit of an original label by the construction loop:
    the label as a warning would show it, its integer key, and the new
    label it asks for. *)
Definition claim : Type := pyval * (Z * Z).

Definition claim_key (c : claim) : Z := c.2.1.

Definition claim_step (b : builder) (c : claim) : builder :=
  match dict_get (claim_key c) (mapping b) with
  | Some target => Builder (mapping b) (warned b ++ [Warning c.1 target])
  | None => Builder (dict_set (claim_key c) c.2.2 (mapping b)) (warned b)
  end.

Definition first_wins (cs : list claim) (b : builder) : builder :=
  foldl claim_step b cs.

(** The elements whose key already occurred, among [seen] or earlier in
    the list. *)
Fixpoint repeats {A} (key : A → Z) (seen : list Z) (xs : list A) : list A :=
  match xs with
  | [] => []
  | x :: xs' =>
      if bool_decide (key x ∈ seen) then x :: repeats key seen xs'
      else repeats key (key x :: seen) xs'
  end.

(** The claims of the sequence form, in the order the loop visits them. *)
Definition group_claims (new_label : Z) (grp : list Z) : list claim :=
  (λ z, (PyInt z, (z, new_label))) <$> grp.

Definition sequence_claims_from (i start_label : Z) (groups : list (list Z)) : list claim :=
  concat ((λ '(idx, grp), group_claims (start_label + idx) grp) <$> enumerate_from i groups).

Definition sequence_claims := sequence_claims_from 0.



(** [x] coerces to the integer [z]. *)
Definition coerces (x : pyval) (z : Z) : Prop := py_int x = Ok z.



Lemma first_wins_cons c cs b :
  first_wins (c :: cs) b = first_wins cs (claim_step b c).
Proof. done. Qed.

Lemma first_wins_app cs1 cs2 b :
  first_wins (cs1 ++ cs2) b = first_wins cs2 (first_wins cs1 b).
Proof. apply foldl_app. Qed.

Lemma sequence_group_first_wins new_label grp zs b :
  Forall2 coerces grp zs →
  for_each grp (λ lab,
      let* lab := lift (py_int lab) in
      let* m := gets mapping in
      match dict_get lab m with
      | Some target => warnings_warn (Warning (PyInt lab) target)
      | None => set_mapping (dict_set lab new_label m)
      end) b
  = (Ok tt, first_wins (group_claims new_label zs) b).
Proof.
  intros H. revert b. induction H as [|x z grp zs Hx _ IH]; intros b; [done|].
  cbn [for_each]. unfold bind at 1. unfold bind at 1, lift at 1. rewrite Hx.
  unfold bind at 1, gets at 1.
  unfold group_claims. rewrite fmap_cons. cbn [first_wins foldl].
  unfold claim_step at 2. cbn [claim_key fst snd].
  destruct (dict_get z (mapping b)) as [t|]; apply IH.
Qed.

Lemma build_from_sequence_from i start_label groups zgroups b :
  Forall2 (Forall2 coerces) groups zgroups →
  for_each (enumerate_from i groups) (λ '(idx, grp),
    let new_label := start_label + idx in
    for_each grp (λ lab,
      let* lab := lift (py_int lab) in
      let* m := gets mapping in
      match dict_get lab m with
      | Some target => warnings_warn (Warning (PyInt lab) target)
      | None => set_mapping (dict_set lab new_label m)
      end)) b
  = (Ok tt, first_wins (sequence_claims_from i start_label zgroups) b).
Proof.
  intros H. revert i b. induction H as [|grp zs groups zgroups Hg _ IH]; intros i b; [done|].
  cbn [enumerate_from for_each]. unfold bind at 1.
  cbv zeta. rewrite (sequence_group_first_wins _ _ zs) by done.
  rewrite IH. unfold sequence_claims_from. cbn [enumerate_from].
  rewrite fmap_cons, concat_cons. by rewrite first_wins_app.
Qed.

(** The sequence form on coercible labels is the first-wins fold. *)
Lemma build_from_sequence_first_wins start_label groups zgroups b :
  Forall2 (Forall2 coerces) groups zgroups →
  build_from_sequence start_label groups b
  = (Ok tt, first_wins (sequence_claims start_label zgroups) b).
Proof. apply build_from_sequence_from. Qed.



(** *** What the fold computes *)

(** First assignment wins: a key keeps the value it had, and a new key
    gets the value of its first claim. *)
Lemma first_wins_get cs b l :
  dict_get l (mapping (first_wins cs b))
  = match dict_get l (mapping b) with
    | Some v => Some v
    | None => dict_get l cs.*2
    end.
Proof.
  revert b. induction cs as [|[x [k v]] cs IH]; intros b.
  - cbn. by destruct (dict_get l (mapping b)).
  - rewrite first_wins_cons, IH. unfold claim_step.
    rewrite fmap_cons. cbn [claim_key fst snd dict_get].
    destruct (dict_get k (mapping b)) as [t|] eqn:Ek; cbn [mapping].
    + destruct (Z.eqb_spec l k) as [->|?]; [by rewrite Ek | done].
    + rewrite dict_get_set. destruct (Z.eqb_spec l k) as [->|?]; [by rewrite Ek | done].
Qed.

Lemma repeats_ext {A} (key : A → Z) seen seen' (xs : list A) :
  (∀ z, z ∈ seen ↔ z ∈ seen') → repeats key seen xs = repeats key seen' xs.
Proof.
  revert seen seen'. induction xs as [|x xs IH]; intros seen seen' H; [done|].
  cbn [repeats]. rewrite (bool_decide_ext _ _ (H (key x))).
  case_bool_decide; [f_equal; by apply IH|].
  apply IH. intros z. rewrite !elem_of_cons, H. done.
Qed.

(** The warnings are, in order, one for each repeated claim, and each
    names the claim's label and the new label the key ends up with. *)
Lemma first_wins_warned cs b :
  ∃ ws, warned (first_wins cs b) = warned b ++ ws ∧
        Forall2 (λ w c, w_label w = c.1 ∧
                        dict_get (claim_key c) (mapping (first_wins cs b)) = Some (w_target w))
                ws (repeats claim_key (dict_keys (mapping b)) cs).
Proof.
  revert b. induction cs as [|c cs IH]; intros b.
  - exists []. split; [by rewrite app_nil_r | constructor].
  - rewrite first_wins_cons. cbn [repeats].
    destruct (IH (claim_step b c)) as (ws & Hws & Hall).
    unfold claim_step in Hws, Hall |- *.
    destruct (dict_get (claim_key c) (mapping b)) as [t|] eqn:Ek; cbn [mapping warned] in *.
    + rewrite bool_decide_eq_true_2 by (apply dict_get_is_Some; by rewrite Ek).
      exists (Warning c.1 t :: ws). split; [by rewrite Hws, <- app_assoc|].
      constructor; [|done]. split; [done|]. cbn [w_target].
      rewrite first_wins_get. cbn [mapping]. by rewrite Ek.
    + rewrite bool_decide_eq_false_2 by (by apply dict_get_None).
      exists ws. split; [done|].
      erewrite repeats_ext; [exact Hall|].
      intros z. rewrite dict_set_keys, Ek, elem_of_app, elem_of_cons, list_elem_of_singleton.
      tauto.
Qed.

Lemma repeats_fmap {A} (key : A → Z) seen (xs : list A) :
  key <$> repeats key seen xs = repeats id seen (key <$> xs).
Proof.
  revert seen. induction xs as [|x xs IH]; intros seen; [done|].
  rewrite fmap_cons. cbn [repeats]. change (id (key x)) with (key x).
  destruct (bool_decide (key x ∈ seen)); [rewrite fmap_cons|]; by rewrite IH.
Qed.

Lemma repeats_Forall {A} (P : A → Prop) (key : A → Z) seen (xs : list A) :
  Forall P xs → Forall P (repeats key seen xs).
Proof.
  intros H. revert seen. induction H as [|x xs Hx _ IH]; intros seen; [constructor|].
  cbn [repeats]. case_bool_decide; [constructor|]; auto.
Qed.


Lemma Forall2_with_r {A B} (P R : A → B → Prop) (Q : B → Prop) l k :
  Forall2 P l k → Forall Q k → (∀ x y, P x y → Q y → R x y) → Forall2 R l k.
Proof.
  intros H HQ Himp. induction H as [|x y l k Hxy _ IH]; [constructor|].
  apply Forall_cons in HQ as [Hy HQ]. constructor; auto.
Qed.

(** ** The sequence form *)

(** The index of the first group that holds [l]. *)
Definition first_group (l : Z) (groups : list (list Z)) : option nat :=
  fst <$> list_find (λ g, l ∈ g) groups.

Lemma group_claims_get l new_label grp :
  dict_get l (group_claims new_label grp).*2
  = if decide (l ∈ grp) then Some new_label else None.
Proof.
  unfold group_claims. induction grp as [|z grp IH]; [done|].
  rewrite !fmap_cons. cbn [snd dict_get]. destruct (Z.eqb_spec l z) as [->|Hne].
  - rewrite decide_True; [done | left].
  - rewrite IH. apply decide_ext. rewrite elem_of_cons. intuition congruence.
Qed.

Lemma sequence_claims_from_get l i start_label groups :
  dict_get l (sequence_claims_from i start_label groups).*2
  = (λ j, start_label + (i + Z.of_nat j)) <$> first_group l groups.
Proof.
  unfold sequence_claims_from, first_group.
  revert i. induction groups as [|g groups IH]; intros i; [done|].
  cbn [enumerate_from list_find]. rewrite fmap_cons, concat_cons, fmap_app.
  rewrite dict_get_app, group_claims_get.
  destruct (decide (l ∈ g)); cbn.
  - do 2 f_equal. lia.
  - rewrite IH. destruct (list_find _ groups) as [[j g']|]; cbn; [|done].
    do 2 f_equal. lia.
Qed.

Lemma sequence_claims_keys i start_label groups :
  claim_key <$> sequence_claims_from i start_label groups = concat groups.
Proof.
  unfold sequence_claims_from.
  revert i. induction groups as [|g groups IH]; intros i; [done|].
  cbn [enumerate_from]. rewrite fmap_cons, !concat_cons, fmap_app, IH. f_equal.
  unfold group_claims. rewrite <- list_fmap_compose. apply list_fmap_id.
Qed.

(** C1.  Sequence form: a label is mapped to [start_label + i] for the
    first group [i] (0-based) that holds it; every later visit of a label
    already in the mapping is skipped with one warning that names the label
    and the new label it is mapped to.  For [[1,2],[2,3]] and
    [start_label = 1], label 2 is mapped to 1 and the one warning emitted
    is about label 2. *)
Theorem sequence_first_assignment_wins :
  (∀ start_label groups zgroups,
     Forall2 (Forall2 coerces) groups zgroups →
     ∃ m ws,
       run_build (GroupsSequence groups) start_label = (Ok tt, Builder m ws) ∧
       (∀ l, dict_get l m
             = (λ i, start_label + Z.of_nat i) <$> first_group l zgroups) ∧
       Forall2 (λ w l, w_label w = PyInt l ∧ dict_get l m = Some (w_target w))
               ws (repeats id [] (concat zgroups))) ∧
  (∃ m, run_build (GroupsSequence [ints [1; 2]; ints [2; 3]]) 1
        = (Ok tt, Builder m [Warning (PyInt 2) 1]) ∧
        dict_get 2 m = Some 1).
Proof.
  split; [|by eexists].
  intros start_label groups zgroups H.
  unfold run_build. cbn [build_mapping].
  rewrite (build_from_sequence_first_wins _ _ zgroups) by done.
  set (cs := sequence_claims start_label zgroups).
  destruct (first_wins_warned cs (Builder [] [])) as (ws & Hws & Hall).
  cbn [warned mapping app dict_keys fmap list_fmap] in Hws, Hall.
  exists (mapping (first_wins cs (Builder [] []))), ws. split_and!.
  - rewrite <- Hws. by destruct (first_wins cs _).
  - intros l. rewrite first_wins_get. cbn [mapping dict_get].
    unfold cs, sequence_claims. rewrite sequence_claims_from_get.
    destruct (first_group l zgroups); [done | done].
  - rewrite <- (sequence_claims_keys 0 start_label zgroups).
    fold (sequence_claims start_label zgroups). fold cs.
    rewrite <- repeats_fmap. apply Forall2_fmap_r.
    assert (Hcs : Forall (λ c : claim, c.1 = PyInt (claim_key c)) cs).
    { unfold cs, sequence_claims, sequence_claims_from.
      apply Forall_concat, Forall_fmap, Forall_forall. intros [idx g] _.
      unfold group_claims. apply Forall_fmap, Forall_true. done. }
    apply (repeats_Forall _ claim_key []) in Hcs.
    eapply Forall2_with_r; [exact Hall | exact Hcs |].
    intros w c [H1 H2] Hc. cbn. split; [congruence | done].
Qed.

Lemma sequence_first_assignment_wins_witness :
  Forall2 (Forall2 coerces) [ints [1; 2]; ints [2; 3]] [[1; 2]; [2; 3]] ∧
  ∃ m ws,
    run_build (GroupsSequence [ints [1; 2]; ints [2; 3]]) 1 = (Ok tt, Builder m ws) ∧
    (∀ l, dict_get l m = (λ i, 1 + Z.of_nat i) <$> first_group l [[1; 2]; [2; 3]]) ∧
    Forall2 (λ w l, w_label w = PyInt l ∧ dict_get l m = Some (w_target w))
            ws (repeats id [] (concat [[1; 2]; [2; 3]])).
Proof.
  assert (H : Forall2 (Forall2 coerces) [ints [1; 2]; ints [2; 3]] [[1; 2]; [2; 3]])
    by (repeat constructor).
  split; [exact H|].
  exact (proj1 sequence_first_assignment_wins 1 _ _ H).
Defined.

(** ** Conflict warnings *)













(** ** The mapping form *)

(** C6.  In the mapping form the membership test is made on the label as
    given and the coercion only happens at the insertion.  A label that is
    not looked up under its integer value (the string ['2'], the float
    [2.5]) is therefore never found: its claim overwrites the first
    assignment and no warning is emitted.  The sequence form coerces first
    and keeps the first assignment on the same labels. *)
Theorem mapping_form_tests_uncoerced_label :
  run_build (GroupsMapping [(PyStr "1", [PyInt 2]); (PyStr "2", [PyStr "2"])]) 1
  = (Ok tt, Builder [(2, 2)] []) ∧
  run_build (GroupsMapping [(PyInt 1, [PyInt 2]); (PyInt 2, [PyFloat 5 (-1)])]) 1
  = (Ok tt, Builder [(2, 2)] []) ∧
  run_build (GroupsSequence [[PyInt 2]; [PyStr "2"]]) 1
  = (Ok tt, Builder [(2, 1)] [Warning (PyInt 2) 1]) ∧
  run_build (GroupsSequence [[PyInt 2]; [PyFloat 5 (-1)]]) 1
  = (Ok tt, Builder [(2, 1)] [Warning (PyInt 2) 1]).
Proof. repeat split. Qed.

(** ** The output dtype *)

Lemma py_max_spec x xs :
  py_max x xs ∈ x :: xs ∧ ∀ y, y ∈ x :: xs → y ≤ py_max x xs.
Proof.
  unfold py_max. revert x. induction xs as [|z xs IH]; intros x; cbn [foldl].
  - split; [left|]. intros y ->%list_elem_of_singleton. lia.
  - destruct (IH (Z.max x z)) as [Hin Hub]. split.
    + apply elem_of_cons in Hin as [->|Hin]; [|by do 2 right].
      destruct (Z.max_spec x z) as [[_ ->]|[_ ->]]; [right; left | left].
    + intros y Hy. pose proof (Hub (Z.max x z) ltac:(left)) as H0.
      apply elem_of_cons in Hy as [->|Hy]; [lia|].
      apply elem_of_cons in Hy as [->|Hy]; [lia|].
      apply Hub. by right.
Qed.

(** [max_new] is the largest new label of the mapping, and 0 for the empty
    mapping. *)
Lemma max_new_spec (m : dict) :
  match m with
  | [] => max_new m = 0
  | _ :: _ => max_new m ∈ dict_values m ∧ ∀ v, v ∈ dict_values m → v ≤ max_new m
  end.
Proof.
  destruct m as [|[k v] m]; [done|].
  unfold max_new, dict_values. rewrite fmap_cons. apply py_max_spec.
Qed.

(** The widths the automatic choice ranges over. *)
Definition auto_dtypes : list dtype := [int8; int16; int32].

(** The dtype [d] can hold [needed]. *)
Definition holds (d : dtype) (needed : Z) : Prop :=
  ∃ mx, iinfo_max d = Some mx ∧ needed ≤ mx.

(** [d] is the narrowest automatic width that can hold [needed]. *)
Definition smallest_holding (d : dtype) (needed : Z) : Prop :=
  d ∈ auto_dtypes ∧ holds d needed ∧
  ∀ d', d' ∈ auto_dtypes → holds d' needed →
        ∃ mx mx', iinfo_max d = Some mx ∧ iinfo_max d' = Some mx' ∧ mx ≤ mx'.

Lemma select_dtype_smallest needed :
  needed ≤ 2147483647 → smallest_holding (select_dtype None needed) needed.
Proof.
  intros Hn. unfold select_dtype, smallest_holding, holds, auto_dtypes.
  destruct (Z.leb_spec needed 127); [|destruct (Z.leb_spec needed 32767)].
  all: split; [set_solver|].
  all: split; [eexists; split; [reflexivity | cbn; lia]|].
  all: intros d' Hd' (mx' & Hmx' & Hle).
  all: repeat (apply elem_of_cons in Hd' as [->|Hd']);
         [..|by apply elem_of_nil in Hd'].
  all: cbn in Hmx'; injection Hmx' as <-.
  all: eexists _, _; split; [reflexivity|]; split; [reflexivity|]; cbn; lia.
Qed.

(** C3, as the code has it.  With no explicit dtype the choice is the
    narrowest of int8, int16, int32 whose maximum is at least
    [max(max_new, reserve)], when one of them can hold that value;
    above 2147483647 the [else] branch still answers int32.  [max_new] is
    the largest new label of the mapping (0 if it is empty) and [reserve]
    is 1 when zeros are preserved, else 0.  A largest new label of 100
    gives int8 and one of 200 gives int16.  An explicit dtype is returned
    as it is, whatever the needed maximum. *)
Theorem output_dtype_selection :
  (∀ m preserve_zero,
     let needed := needed_max m preserve_zero in
     needed = Z.max (max_new m) (if preserve_zero then 1 else 0) ∧
     match m with
     | [] => max_new m = 0
     | _ :: _ => max_new m ∈ dict_values m ∧ ∀ v, v ∈ dict_values m → v ≤ max_new m
     end ∧
     (needed ≤ 2147483647 → smallest_holding (select_dtype None needed) needed) ∧
     (2147483647 < needed → select_dtype None needed = int32)) ∧
  (∀ m preserve_zero,
     (max_new m = 100 → select_dtype None (needed_max m preserve_zero) = int8) ∧
     (max_new m = 200 → select_dtype None (needed_max m preserve_zero) = int16)) ∧
  (∀ d needed, select_dtype (Some d) needed = d).
Proof.
  split_and!.
  - intros m pz needed. split_and!.
    + done.
    + apply max_new_spec.
    + apply select_dtype_smallest.
    + intros H. unfold select_dtype.
      destruct (Z.leb_spec needed 127); [lia|].
      destruct (Z.leb_spec needed 32767); [lia | done].
  - intros m pz. unfold needed_max, reserve. split; intros ->; by destruct pz.
  - done.
Qed.

(** A new label of 2147483648 still selects int32, which cannot hold it. *)
Lemma int32_selected_beyond_its_range :
  ∃ m, run_build (GroupsMapping [(PyInt 2147483648, [PyInt 1])]) 1
       = (Ok tt, Builder m []) ∧
       select_dtype None (needed_max m true) = int32 ∧
       ¬ smallest_holding (select_dtype None (needed_max m true)) (needed_max m true).
Proof.
  eexists. split; [reflexivity|]. split; [reflexivity|].
  intros (_ & (mx & Hmx & Hle) & _). vm_compute in Hmx, Hle.
  injection Hmx as <-. by apply Hle.
Qed.

Lemma output_dtype_selection_witness :
  needed_max [(17, 100)] true ≤ 2147483647 ∧
  smallest_holding (select_dtype None (needed_max [(17, 100)] true))
                   (needed_max [(17, 100)] true) ∧
  max_new [(17, 200); (53, 4)] = 200 ∧
  select_dtype None (needed_max [(17, 200); (53, 4)] true) = int16.
Proof.
  assert (H1 : needed_max [(17, 100)] true ≤ 2147483647) by (vm_compute; discriminate).
  assert (H2 : max_new [(17, 200); (53, 4)] = 200) by reflexivity.
  split; [exact H1|]. split; [|split; [exact H2|]].
  - exact (proj1 (proj2 (proj2 (proj1 output_dtype_selection [(17, 100)] true))) H1).
  - exact (proj2 (proj1 (proj2 output_dtype_selection) [(17, 200); (53, 4)] true) H2).
Defined.

(** ** Relabelling an array *)

Lemma assign_where_lookup data k c xs i x o :
  data !! i = Some x → xs !! i = Some o →
  assign_where data k c xs !! i = Some (if Z.eqb x k then c else o).
Proof.
  intros Hx Ho. unfold assign_where. by rewrite lookup_zip_with, Hx, Ho.
Qed.

Lemma assign_where_length data k c xs :
  length xs = length data → length (assign_where data k c xs) = length data.
Proof. intros H. unfold assign_where. rewrite length_zip_with. lia. Qed.


(** The masks of two different labels are disjoint, so their assignments
    commute. *)
Lemma assign_where_comm data k1 c1 k2 c2 xs :
  k1 ≠ k2 →
  assign_where data k1 c1 (assign_where data k2 c2 xs)
  = assign_where data k2 c2 (assign_where data k1 c1 xs).
Proof.
  intros Hne. unfold assign_where.
  revert xs. induction data as [|x data IH]; intros [|o xs]; try done.
  cbn [zip_with]. rewrite IH. f_equal.
  destruct (Z.eqb_spec x k1), (Z.eqb_spec x k2); congruence.
Qed.

Section Relabel.

Variable np_cast : dtype → Z → option Z.

(** The pass of lines 147-150 over the contents [xs] of [out]. *)
Fixpoint relabel (d : dtype) (data : list Z) (preserve_zero : bool)
    (m : dict) (xs : list Z) : option (list Z) :=
  match m with
  | [] => Some xs
  | (orig_label, new_label) :: m' =>
      if Z.eqb orig_label 0 && preserve_zero then relabel d data preserve_zero m' xs
      else
        match np_cast d new_label with
        | Some c => relabel d data preserve_zero m' (assign_where data orig_label c xs)
        | None => None
        end
  end.

Lemma relabel_length d data pz m xs xs' :
  relabel d data pz m xs = Some xs' → length xs = length data →
  length xs' = length data.
Proof.
  revert xs. induction m as [|[k v] m IH]; intros xs; cbn [relabel].
  - by intros [= ->].
  - destruct (Z.eqb k 0 && pz); [apply IH|].
    destruct (np_cast d v) as [c|]; [|done].
    intros H Hlen. eapply IH; [exact H|]. by apply assign_where_length.
Qed.

(** What one voxel ends up with: the cast new label of its value's
    entry, or what it held when there is no entry or the entry is
    skipped. *)
Lemma relabel_lookup d data pz m xs xs' i x o :
  relabel d data pz m xs = Some xs' → NoDup (dict_keys m) →
  data !! i = Some x → xs !! i = Some o →
  match dict_get x m with
  | Some v =>
      if Z.eqb x 0 && pz then xs' !! i = Some o
      else ∃ c, np_cast d v = Some c ∧ xs' !! i = Some c
  | None => xs' !! i = Some o
  end.
Proof.
  intros Hrun Hnd Hx. revert xs o Hrun.
  induction m as [|[k v] m IH]; intros xs o Hrun Ho; cbn [relabel dict_get] in *.
  - congruence.
  - unfold dict_keys in Hnd. rewrite fmap_cons in Hnd. cbn [fst] in Hnd.
    apply NoDup_cons in Hnd as [Hk Hnd]. fold (dict_keys m) in Hk, Hnd.
    apply dict_get_None in Hk.
    destruct (Z.eqb_spec x k) as [->|Hne].
    + destruct (Z.eqb k 0 && pz).
      * specialize (IH Hnd xs o Hrun Ho). by rewrite Hk in IH.
      * destruct (np_cast d v) as [c|]; [|done].
        exists c. split; [done|].
        specialize (IH Hnd _ c Hrun). rewrite Hk in IH. apply IH.
        rewrite (assign_where_lookup _ _ _ _ _ k o) by done.
        by rewrite Z.eqb_refl.
    + destruct (Z.eqb k 0 && pz); [by apply (IH Hnd xs)|].
      destruct (np_cast d v) as [c|]; [|done].
      apply (IH Hnd _ o Hrun).
      rewrite (assign_where_lookup _ _ _ _ _ x o) by done.
      by destruct (Z.eqb_spec x k).
Qed.

(** The pass does not depend on the order of the pairs. *)
Lemma relabel_Permutation d data pz (m m' : dict) :
  m ≡ₚ m' → NoDup (dict_keys m) →
  ∀ xs, relabel d data pz m xs = relabel d data pz m' xs.
Proof.
  unfold dict_keys.
  induction 1 as [|[k v] m m' Hp IH|[k1 v1] [k2 v2] m|m1 m2 m3 H12 IH12 H23 IH23];
    intros Hnd xs.
  - done.
  - rewrite fmap_cons in Hnd. apply NoDup_cons in Hnd as [_ Hnd].
    cbn [relabel]. destruct (Z.eqb k 0 && pz); [by apply IH|].
    destruct (np_cast d v); [by apply IH | done].
  - rewrite !fmap_cons in Hnd. cbn [fst] in Hnd.
    apply NoDup_cons in Hnd as [Hne _]. apply not_elem_of_cons in Hne as [Hne _].
    cbn [relabel].
    destruct (Z.eqb k1 0 && pz), (Z.eqb k2 0 && pz); try done.
    destruct (np_cast d v1) as [c1|], (np_cast d v2) as [c2|]; try done.
    by rewrite assign_where_comm.
  - rewrite IH12 by done. apply IH23. by rewrite <- H12.
Qed.

End Relabel.

(** ** The mapping always has distinct keys *)

Lemma build_from_mapping_NoDup entries b :
  NoDup (dict_keys (mapping b)) →
  NoDup (dict_keys (mapping (build_from_mapping entries b).2)).
Proof.
  apply (for_each_invariant (λ b, NoDup (dict_keys (mapping b)))).
  intros [new_label originals] b1 Hb1.
  apply (for_each_invariant (λ b, NoDup (dict_keys (mapping b)))); [|done].
  intros lab b2 Hb2. unfold bind, gets, lift, warnings_warn, set_mapping, modify.
  destruct (dict_lookup lab (mapping b2)); [done|].
  destruct (py_int new_label); [|done].
  destruct (py_int lab); [|done].
  by apply dict_set_NoDup.
Qed.

Lemma build_from_sequence_NoDup start_label groups b :
  NoDup (dict_keys (mapping b)) →
  NoDup (dict_keys (mapping (build_from_sequence start_label groups b).2)).
Proof.
  apply (for_each_invariant (λ b, NoDup (dict_keys (mapping b)))).
  intros [idx grp] b1 Hb1.
  apply (for_each_invariant (λ b, NoDup (dict_keys (mapping b)))); [|done].
  intros lab b2 Hb2. unfold bind, gets, lift, warnings_warn, set_mapping, modify.
  destruct (py_int lab) as [z|]; [|done].
  destruct (dict_get z (mapping b2)); [done|].
  by apply dict_set_NoDup.
Qed.

(** Whatever the grouping, and however the construction ends. *)
Lemma run_build_NoDup groups start_label :
  NoDup (dict_keys (mapping (run_build groups start_label).2)).
Proof.
  unfold run_build. destruct groups; cbn [build_mapping].
  - apply build_from_mapping_NoDup, NoDup_nil_2.
  - apply build_from_sequence_NoDup, NoDup_nil_2.
Qed.

Lemma filter_none {A} (P : A → Prop) `{!∀ x, Decision (P x)} (l : list A) :
  Forall (λ x, ¬ P x) l → filter P l = [].
Proof.
  induction 1 as [|x l Hx _ IH]; [done|]. by rewrite filter_cons_False.
Qed.

Lemma NoDup_keys_filter (m : list (Z * Z)) x :
  NoDup (dict_keys m) → (length (filter (λ p, p.1 = x) m) ≤ 1)%nat.
Proof.
  unfold dict_keys. induction m as [|[k v] m IH]; [cbn; lia|].
  rewrite fmap_cons. intros [Hk Hnd]%NoDup_cons. rewrite filter_cons.
  cbn [fst] in *. destruct (decide (k = x)) as [->|Hne]; [|by apply IH].
  cbn [length]. rewrite filter_none; [done|].
  apply Forall_forall. intros [k v'] Hin Heq. cbn in Heq. subst k.
  apply Hk, list_elem_of_fmap. by exists (x, v').
Qed.

(** ** Running the function *)

Section Run.

Context {raw affine_t fields_t : Type}.
Variable to_int32 : raw → Z.
Variable sample_of : dtype → Z → raw.
Variable np_cast : dtype → Z → option Z.
Variable nib_load : string → result (@image affine_t).

Abbreviation world := (@world raw affine_t fields_t).
Abbreviation cell := (@cell raw fields_t).
Abbreviation image := (@image affine_t).

(** The loop of lines 147-150 rewrites the cell of [out], and nothing
    else, with what the pass computes; it raises when the pass does. *)
Lemma apply_mapping_run out data pz m (w : world) d shape xs :
  heap w !! out = Some (Array d shape xs) →
  ∃ xs',
    apply_mapping np_cast out data pz m w
    = (match relabel np_cast d data pz m xs with
       | Some _ => Ok tt
       | None => Raise OverflowError
       end,
       World (<[out := Array d shape xs']> (heap w)) (warnings w) (saved w)) ∧
    ∀ xs'', relabel np_cast d data pz m xs = Some xs'' → xs' = xs''.
Proof.
  revert w xs. induction m as [|[k v] m IH]; intros w xs Hout.
  - exists xs. split; [|by intros ? [= ->]].
    cbn. unfold ret. rewrite insert_id by done. by destruct w.
  - change (apply_mapping np_cast out data pz ((k, v) :: m))
      with (bind (if Z.eqb k 0 && pz then ret tt
                  else assign_masked np_cast out data k v)
                 (λ _ : unit, apply_mapping (raw := raw) (affine_t := affine_t)
                                (fields_t := fields_t) np_cast out data pz m)).
    cbn [relabel]. unfold bind at 1.
    destruct (Z.eqb k 0 && pz).
    { unfold ret at 1. apply IH, Hout. }
    unfold assign_masked, bind at 1, read at 1. rewrite Hout.
    destruct (np_cast d v) as [c|].
    + unfold write, modify.
      set (w1 := World _ _ _).
      destruct (IH w1 (assign_where data k c xs)) as (xs' & Hrun & Hxs').
      { unfold w1. cbn [heap]. apply lookup_insert_eq. }
      exists xs'. split; [|done]. rewrite Hrun. unfold w1. cbn [heap warnings saved].
      by rewrite insert_insert_eq.
    + exists xs. split; [|done]. unfold raise.
      rewrite insert_id by done. by destruct w.
Qed.

(** The location of the output array and of the new header. *)
Definition out_loc (w : world) : loc := fresh (dom (heap w)).
Definition hdr_loc (w : world) : loc := fresh ({[out_loc w]} ∪ dom (heap w)).

Lemma out_loc_fresh (w : world) : heap w !! out_loc w = None.
Proof. apply (not_elem_of_dom (D := gset loc)). unfold out_loc. apply is_fresh. Qed.

Lemma hdr_loc_fresh (w : world) : heap w !! hdr_loc w = None ∧ hdr_loc w ≠ out_loc w.
Proof.
  pose proof (is_fresh ({[out_loc w]} ∪ dom (heap w))) as H.
  fold (hdr_loc w) in H. split; [apply (not_elem_of_dom (D := gset loc))|]; set_solver.
Qed.

(** A successful call: the image resolves, its voxel array and header
    are in the store, the construction and the pass complete. *)
Record completes (dseg_input : dseg_arg) (groups : groups_arg) (start_label : Z)
    (preserve_zero : bool) (out_dtype : option dtype) (w : world)
    (img : image) (shape : list nat) (data : list Z) (h : @header fields_t)
    (m : dict) (ws : list warning) (d : dtype) (out : list Z) : Prop := {
  c_load : load nib_load dseg_input = Ok img;
  c_voxels : ∃ c, heap w !! dataobj img = Some c ∧
                  int32_voxels to_int32 sample_of c = Ok (shape, data);
  c_header : heap w !! header_ref img = Some (HeaderObj h);
  c_build : run_build groups start_label = (Ok tt, Builder m ws);
  c_dtype : d = select_dtype out_dtype (needed_max m preserve_zero);
  c_pass : relabel np_cast d data preserve_zero m (np_zeros (length data)) = Some out
}.

(** What a successful call returns and leaves behind. *)
Definition result_image (w : world) (img : image) : image :=
  Image (out_loc w) (affine img) (hdr_loc w).

Definition result_world (output_path : option string) (w : world) (img : image) shape
    (h : @header fields_t) ws d out : world :=
  World (<[hdr_loc w := HeaderObj (Header d (fields h))]>
           (<[out_loc w := Array d shape out]> (heap w)))
        (warnings w ++ ws)
        (saved w ++ written output_path (result_image w img)).

Abbreviation combine :=
  (combine_dseg_labels (raw := raw) (fields_t := fields_t)
     to_int32 sample_of np_cast nib_load).

Lemma get_fdata_run (w : world) (img : image) c :
  heap w !! dataobj img = Some c →
  get_fdata_astype_int32 to_int32 sample_of img w
  = (int32_voxels to_int32 sample_of c, w).
Proof.
  intros Hc. unfold get_fdata_astype_int32, bind, read. by rewrite Hc.
Qed.

Lemma build_run groups start_label (w : world) :
  build groups start_label w
  = (match (run_build groups start_label).1 with
     | Ok _ => Ok (mapping (run_build groups start_label).2)
     | Raise e => Raise e
     end,
     World (heap w) (warnings w ++ warned (run_build groups start_label).2) (saved w)).
Proof. unfold build. by destruct (run_build groups start_label). Qed.

(** The call on a successful run. *)
Lemma combine_completes dseg_input groups output_path start_label pz out_dtype
    (w : world) img shape data h m ws d out :
  completes dseg_input groups start_label pz out_dtype w img shape data h m ws d out →
  combine dseg_input groups output_path start_label pz out_dtype w
  = (Ok (result_image w img), result_world output_path w img shape h ws d out).
Proof.
  intros [Hload (c & Hc & Hvox) Hh Hbuild Hd Hpass].
  unfold combine_dseg_labels.
  unfold bind at 1, lift at 1. rewrite Hload.
  unfold bind at 1. rewrite (get_fdata_run _ _ c), Hvox by done.
  unfold bind at 1. rewrite build_run, Hbuild. cbn [fst snd mapping warned].
  rewrite <- Hd.
  unfold bind at 1, alloc at 1. cbn [heap warnings saved]. fold (out_loc w).
  set (w1 := World _ _ _).
  destruct (apply_mapping_run (out_loc w) data pz m w1 d shape (np_zeros (length data)))
    as (xs' & Hrun & Hxs').
  { unfold w1. cbn [heap]. apply lookup_insert_eq. }
  rewrite Hpass in Hrun. specialize (Hxs' _ Hpass). subst xs'.
  unfold bind at 1. rewrite Hrun. unfold w1. cbn [heap warnings saved].
  rewrite insert_insert_eq.
  unfold bind at 1, header_copy, bind at 1, read at 1. cbn [heap header_ref].
  assert (Hne : out_loc w ≠ header_ref img).
  { intros Heq. rewrite <- Heq, out_loc_fresh in Hh. done. }
  rewrite lookup_insert_ne, Hh by done.
  unfold alloc at 1. cbn [heap warnings saved].
  rewrite dom_insert_L. fold (hdr_loc w).
  unfold bind at 1, set_data_dtype, bind at 1, read at 1. cbn [heap header_ref].
  rewrite lookup_insert_eq. unfold write, modify. cbn [heap warnings saved fields].
  rewrite insert_insert_eq.
  unfold result_image, result_world, written, bind, nib_save, modify, ret.
  destruct output_path as [path|]; [destruct (String.eqb path "")|];
    cbn [heap warnings saved]; by rewrite ?app_nil_r.
Qed.

(** A call that returns is a successful run. *)
Lemma combine_Ok_inv dseg_input groups output_path start_label pz out_dtype
    (w w' : world) new_img :
  combine dseg_input groups output_path start_label pz out_dtype w = (Ok new_img, w') →
  ∃ img shape data h m ws d out,
    completes dseg_input groups start_label pz out_dtype w img shape data h m ws d out ∧
    new_img = result_image w img ∧
    w' = result_world output_path w img shape h ws d out.
Proof.
  intros Hrun. pose proof Hrun as Hrun0. unfold combine_dseg_labels in Hrun.
  apply bind_Ok in Hrun as (img & w1 & Hload & Hrun).
  unfold lift in Hload. injection Hload as Hload <-.
  apply bind_Ok in Hrun as ([shape data] & w1 & Hvox & Hrun).
  unfold get_fdata_astype_int32 in Hvox.
  apply bind_Ok in Hvox as (c & w2 & Hc & Hvox).
  unfold read in Hc. destruct (heap w !! dataobj img) as [c'|] eqn:Ec; [|done].
  injection Hc as -> <-. unfold lift in Hvox. injection Hvox as Hvox <-.
  apply bind_Ok in Hrun as (m & w1 & Hbuild & Hrun).
  rewrite build_run in Hbuild.
  destruct (run_build groups start_label) as [[[]|e] [m' ws]] eqn:Eb; [|done].
  cbn [fst snd mapping warned] in Hbuild. injection Hbuild as -> <-.
  cbn [fst snd] in Hrun.
  set (d := select_dtype out_dtype (needed_max m pz)) in *.
  apply bind_Ok in Hrun as (o & w1 & Halloc & Hrun).
  unfold alloc in Halloc. cbn [heap warnings saved] in Halloc.
  injection Halloc as <- <-. fold (out_loc w) in Hrun.
  apply bind_Ok in Hrun as ([] & w2 & Hpass & Hrun).
  match type of Hpass with apply_mapping _ _ _ _ _ ?wa = _ => set (w1 := wa) in * end.
  destruct (apply_mapping_run (out_loc w) data pz m w1 d shape (np_zeros (length data)))
    as (xs' & Hpass' & Hxs').
  { unfold w1. cbn [heap]. apply lookup_insert_eq. }
  rewrite Hpass' in Hpass.
  destruct (relabel np_cast d data pz m (np_zeros (length data))) as [out|] eqn:Er; [|done].
  injection Hpass as <-. clear Hxs' Hpass'.
  apply bind_Ok in Hrun as (hl & w3 & Hcopy & _).
  unfold header_copy in Hcopy. apply bind_Ok in Hcopy as (ch & w4 & Hread & Hcopy).
  unfold read in Hread. unfold w1 in Hread. cbn [heap] in Hread.
  rewrite insert_insert_eq in Hread.
  destruct (decide (out_loc w = header_ref img)) as [Heq|Hne].
  { rewrite <- Heq, lookup_insert_eq in Hread. injection Hread as <- <-. done. }
  rewrite lookup_insert_ne in Hread by done.
  destruct (heap w !! header_ref img) as [ch'|] eqn:Eh; [|done].
  injection Hread as -> <-.
  destruct ch as [| |h]; try done.
  assert (Hc : completes dseg_input groups start_label pz out_dtype w
                 img shape data h m ws d out).
  { constructor; eauto. }
  rewrite (combine_completes _ _ _ _ _ _ _ _ _ _ _ _ _ _ _ Hc) in Hrun0.
  injection Hrun0 as <- <-. by exists img, shape, data, h, m, ws, d, out.
Qed.

(** *** What a call that returns has computed *)

(** The converted voxels the call works on. *)
Definition input_voxels (dseg_input : dseg_arg) (w : world)
    (shape : list nat) (data : list Z) : Prop :=
  ∃ img c, load nib_load dseg_input = Ok img ∧ heap w !! dataobj img = Some c ∧
           int32_voxels to_int32 sample_of c = Ok (shape, data).

(** The voxel array of the image the call returns. *)
Definition output_voxels (new_img : image) (w' : world)
    (d : dtype) (shape : list nat) (out : list Z) : Prop :=
  heap w' !! dataobj new_img = Some (Array d shape out).



Lemma result_world_out output_path (w : world) img shape h ws d out :
  heap (result_world output_path w img shape h ws d out) !! out_loc w
  = Some (Array d shape out).
Proof.
  unfold result_world. cbn [heap].
  rewrite lookup_insert_ne by apply hdr_loc_fresh. apply lookup_insert_eq.
Qed.

(** Each output voxel is the stored new label of the entry of its
    converted input value, and 0 when there is no entry or the entry is
    the skipped one. *)
Lemma combine_voxels dseg_input groups output_path start_label pz out_dtype
    (w w' : world) new_img :
  combine dseg_input groups output_path start_label pz out_dtype w = (Ok new_img, w') →
  ∃ shape data m ws d out,
    input_voxels dseg_input w shape data ∧
    run_build groups start_label = (Ok tt, Builder m ws) ∧
    d = select_dtype out_dtype (needed_max m pz) ∧
    output_voxels new_img w' d shape out ∧
    length out = length data ∧
    ∀ i x, data !! i = Some x →
      match dict_get x m with
      | Some v =>
          if Z.eqb x 0 && pz then out !! i = Some 0
          else ∃ c, np_cast d v = Some c ∧ out !! i = Some c
      | None => out !! i = Some 0
      end.
Proof.
  intros Hrun.
  apply combine_Ok_inv in Hrun
    as (img & shape & data & h & m & ws & d & out & Hc & -> & ->).
  destruct Hc as [Hload (c & Hc & Hvox) Hh Hbuild Hd Hpass].
  exists shape, data, m, ws, d, out. split_and!; try done.
  - by exists img, c.
  - apply result_world_out.
  - eapply relabel_length; [exact Hpass|]. apply length_replicate.
  - intros i x Hx.
    eapply (relabel_lookup np_cast d data pz m _ out i x 0); try done.
    + pose proof (run_build_NoDup groups start_label) as Hnd.
      by rewrite Hbuild in Hnd.
    + apply lookup_replicate_2. by eapply lookup_lt_Some.
Qed.

(** *** Zero preservation *)

Lemma relabel_skips_zero d data (m : list (Z * Z)) xs :
  relabel np_cast d data true m xs
  = relabel np_cast d data true (filter (λ p, p.1 ≠ 0) m) xs.
Proof.
  revert xs. induction m as [|[k v] m IH]; intros xs; [done|].
  rewrite filter_cons. cbn [relabel fst].
  destruct (Z.eqb_spec k 0) as [->|Hk]; cbn [andb].
  - rewrite decide_False by (by intros ?). apply IH.
  - rewrite decide_True by done. cbn [relabel].
    rewrite (proj2 (Z.eqb_neq k 0)) by done. cbn [andb].
    destruct (np_cast d v); [apply IH | done].
Qed.

(** C2.  With [preserve_zero] on, every voxel whose converted input
    value is 0 is 0 in the output of a call that returns, whatever the
    grouping and whatever new label an entry gives to 0; the pass with
    the entry of key 0 is the pass without it. *)
Theorem zero_voxels_stay_zero dseg_input groups output_path start_label out_dtype
    (w w' : world) new_img :
  combine dseg_input groups output_path start_label true out_dtype w = (Ok new_img, w') →
  (∃ shape data d out,
     input_voxels dseg_input w shape data ∧
     output_voxels new_img w' d shape out ∧
     length out = length data ∧
     ∀ i, data !! i = Some 0 → out !! i = Some 0) ∧
  (∀ d data (m : list (Z * Z)) xs,
     relabel np_cast d data true m xs
     = relabel np_cast d data true (filter (λ p, p.1 ≠ 0) m) xs).
Proof.
  intros Hrun. split; [|apply relabel_skips_zero].
  apply combine_voxels in Hrun
    as (shape & data & m & ws & d & out & Hin & _ & _ & Hout & Hlen & Hvox).
  exists shape, data, d, out. split_and!; try done.
  intros i Hi. specialize (Hvox i 0 Hi). cbn in Hvox.
  by destruct (dict_get 0 m).
Qed.

(** *** Unmapped values *)


(** *** Order of the pairs *)

(** C7.  The mapping a construction leaves has one pair per original
    label, so a voxel is written by at most one pair, and running the
    loop over the pairs in any other order returns or raises alike and,
    when it returns, leaves the same store. *)
Theorem pass_order_is_irrelevant groups start_label r m ws (m' : list (Z * Z)) :
  run_build groups start_label = (r, Builder m ws) → m ≡ₚ m' →
  (∀ x, (length (filter (λ p, p.1 = x) m) ≤ 1)%nat) ∧
  ∀ out data pz (w : world) d shape xs,
    heap w !! out = Some (Array d shape xs) →
    (apply_mapping np_cast out data pz m' w).1 = (apply_mapping np_cast out data pz m w).1 ∧
    ((apply_mapping np_cast out data pz m w).1 = Ok tt →
     apply_mapping np_cast out data pz m' w = apply_mapping np_cast out data pz m w).
Proof.
  intros Hbuild Hperm.
  assert (Hnd : NoDup (dict_keys m)).
  { pose proof (run_build_NoDup groups start_label) as H. by rewrite Hbuild in H. }
  split; [intros x; by apply NoDup_keys_filter|].
  intros out data pz w d shape xs Hout.
  destruct (apply_mapping_run out data pz m w d shape xs Hout) as (ys & Hm & Hys).
  destruct (apply_mapping_run out data pz m' w d shape xs Hout) as (ys' & Hm' & Hys').
  rewrite <- (relabel_Permutation np_cast d data pz m m' Hperm Hnd) in Hm', Hys'.
  rewrite Hm, Hm'. cbn [fst]. split; [done|].
  destruct (relabel np_cast d data pz m xs) as [zs|]; [|done].
  intros _. by rewrite (Hys zs), (Hys' zs).
Qed.

(** *** The store around a call *)

(** A call, however it ends, leaves the store as it was, or with the
    output array added, or with the output array and the new header
    added. *)
Lemma combine_heap dseg_input groups output_path start_label pz out_dtype
    (w w' : world) r :
  combine dseg_input groups output_path start_label pz out_dtype w = (r, w') →
  heap w' = heap w ∨
  (∃ c, heap w' = <[out_loc w := c]> (heap w)) ∨
  (∃ c c', heap w' = <[hdr_loc w := c']> (<[out_loc w := c]> (heap w))).
Proof.
  unfold combine_dseg_labels.
  unfold bind at 1, lift at 1.
  destruct (load nib_load dseg_input) as [img|e]; [|intros [= _ <-]; by left].
  unfold bind at 1, get_fdata_astype_int32, bind at 1, read at 1.
  destruct (heap w !! dataobj img) as [c|]; [|intros [= _ <-]; by left].
  unfold lift at 1.
  destruct (int32_voxels to_int32 sample_of c) as [[shape data]|e];
    [|intros [= _ <-]; by left].
  unfold bind at 1. rewrite build_run.
  destruct (run_build groups start_label) as [[[]|e] [m ws]];
    cbn [fst snd mapping warned]; [|intros [= _ <-]; by left].
  set (d := select_dtype out_dtype (needed_max m pz)).
  unfold bind at 1, alloc at 1. cbn [heap warnings saved]. fold (out_loc w).
  set (w1 := World _ _ _).
  destruct (apply_mapping_run (out_loc w) data pz m w1 d shape (np_zeros (length data)))
    as (xs' & Hrun & _).
  { unfold w1. cbn [heap]. apply lookup_insert_eq. }
  unfold bind at 1. rewrite Hrun. unfold w1. cbn [heap warnings saved].
  rewrite insert_insert_eq.
  destruct (relabel np_cast d data pz m (np_zeros (length data)));
    [|intros [= _ <-]; right; left; by eexists].
  unfold bind at 1, header_copy, bind at 1, read at 1. cbn [heap header_ref].
  destruct (_ !! header_ref img) as [[| |h]|];
    try (intros [= _ <-]; right; left; by eexists).
  unfold alloc at 1. cbn [heap warnings saved].
  rewrite dom_insert_L. fold (hdr_loc w).
  unfold bind at 1, set_data_dtype, bind at 1, read at 1. cbn [heap header_ref].
  rewrite lookup_insert_eq. unfold write, modify. cbn [heap warnings saved fields].
  rewrite insert_insert_eq.
  unfold bind, nib_save, modify, ret.
  destruct output_path as [path|]; [destruct (String.eqb path "")|];
    intros [= _ <-]; right; right; by eexists _, _.
Qed.

(** No object of the store before the call is changed by it. *)
Lemma combine_frame dseg_input groups output_path start_label pz out_dtype
    (w w' : world) r l c :
  combine dseg_input groups output_path start_label pz out_dtype w = (r, w') →
  heap w !! l = Some c → heap w' !! l = Some c.
Proof.
  intros Hrun Hl.
  assert (l ≠ out_loc w) by (intros ->; by rewrite out_loc_fresh in Hl).
  assert (l ≠ hdr_loc w)
    by (intros ->; by rewrite (proj1 (hdr_loc_fresh w)) in Hl).
  apply combine_heap in Hrun as [->|[[c1 ->]|(c1 & c2 & ->)]];
    by rewrite ?lookup_insert_ne.
Qed.

(** C8.  A call changes no object that was in the store, so the voxel
    array of the input volume (and its header) still hold what they
    held, however the call ends.  The image a call returns has the
    affine of the input, a new voxel array, and a new header that is the
    input's except for the data type, which is the chosen dtype. *)
Theorem input_untouched_and_metadata_carried dseg_input groups output_path start_label
    pz out_dtype (w w' : world) r :
  combine dseg_input groups output_path start_label pz out_dtype w = (r, w') →
  (∀ l c, heap w !! l = Some c → heap w' !! l = Some c) ∧
  (∀ new_img, r = Ok new_img →
     ∃ img h m ws,
       load nib_load dseg_input = Ok img ∧
       heap w !! header_ref img = Some (HeaderObj h) ∧
       run_build groups start_label = (Ok tt, Builder m ws) ∧
       affine new_img = affine img ∧
       heap w' !! header_ref new_img
       = Some (HeaderObj (Header (select_dtype out_dtype (needed_max m pz)) (fields h))) ∧
       heap w !! dataobj new_img = None ∧
       heap w !! header_ref new_img = None).
Proof.
  intros Hrun. split.
  - intros l c. by eapply combine_frame.
  - intros new_img ->. apply combine_Ok_inv in Hrun
      as (img & shape & data & h & m & ws & d & out & Hc & -> & ->).
    destruct Hc as [Hload _ Hh Hbuild Hd _].
    exists img, h, m, ws. split_and!; try done.
    + unfold result_world, result_image. cbn [heap header_ref].
      rewrite lookup_insert_eq. by rewrite Hd.
    + apply out_loc_fresh.
    + apply hdr_loc_fresh.
Qed.

(** *** The empty grouping *)


(** *** Matching on converted values *)



End Run.

(** ** The concrete environment *)


Example sample_16777217_is_matched_as_16777216 :
  Env.to_int32 <$> [16777217] = [16777216] ∧
  relabel Env.np_cast_strict int8 (Env.to_int32 <$> [16777217]) true [(16777217, 1)] [0]
  = Some [0] ∧
  relabel Env.np_cast_strict int8 (Env.to_int32 <$> [16777217]) true [(16777216, 1)] [0]
  = Some [1].
Proof. repeat split. Qed.

(** One call on [Env.vol]: 0 and 17 are sent to 5, zeros are preserved. *)
Lemma run_example :
  Env.run (DsegImage Env.img) (GroupsMapping [(PyInt 5, ints [0; 17])]) None 1 true None
          Env.vol
  = (Ok (result_image Env.vol Env.img),
     result_world None Env.vol Env.img [6%nat] (Header (dtype_other "float32") tt)
                  [] int8 [0; 5; 0; 0; 0; 0]).
Proof.
  apply (combine_completes _ _ _ _ _ _ _ _ _ _ _ _ _
           [0; 17; 53; 0; 4; 16777216] _ [(0, 5); (17, 5)]).
  constructor; try reflexivity.
  eexists. split; reflexivity.
Qed.

(** ** The theorems at work on [Env.vol] *)

Lemma zero_voxels_stay_zero_witness :
  ∃ new_img w',
    Env.run (DsegImage Env.img) (GroupsMapping [(PyInt 5, ints [0; 17])]) None 1 true None
            Env.vol = (Ok new_img, w') ∧
    (∃ shape data d out,
       input_voxels Env.to_int32 Env.sample_of Env.nib_load (DsegImage Env.img) Env.vol
                    shape data ∧
       output_voxels new_img w' d shape out ∧
       length out = length data ∧
       ∀ i, data !! i = Some 0 → out !! i = Some 0) ∧
    (∀ d data (m : list (Z * Z)) xs,
       relabel Env.np_cast_strict d data true m xs
       = relabel Env.np_cast_strict d data true (filter (λ p, p.1 ≠ 0) m) xs).
Proof.
  eexists _, _. split; [exact run_example|].
  exact (zero_voxels_stay_zero Env.to_int32 Env.sample_of Env.np_cast_strict
           Env.nib_load _ _ _ _ _ _ _ _ run_example).
Defined.


Lemma pass_order_is_irrelevant_witness :
  let m := [(1, 1); (2, 1); (3, 2)] in
  let m' := [(3, 2); (1, 1); (2, 1)] in
  let w : @world Z unit unit :=
    World {[ 1%positive := Array int8 [5%nat] [0; 0; 0; 0; 0] ]} [] [] in
  run_build (GroupsSequence [ints [1; 2]; ints [2; 3]]) 1
  = (Ok tt, Builder m [Warning (PyInt 2) 1]) ∧
  m ≡ₚ m' ∧
  heap w !! 1%positive = Some (Array int8 [5%nat] [0; 0; 0; 0; 0]) ∧
  (∀ x, (length (filter (λ p, p.1 = x) m) ≤ 1)%nat) ∧
  (apply_mapping Env.np_cast_strict 1%positive [0; 1; 2; 3; 1] true m' w).1
  = (apply_mapping Env.np_cast_strict 1%positive [0; 1; 2; 3; 1] true m w).1 ∧
  ((apply_mapping Env.np_cast_strict 1%positive [0; 1; 2; 3; 1] true m w).1 = Ok tt →
   apply_mapping Env.np_cast_strict 1%positive [0; 1; 2; 3; 1] true m' w
   = apply_mapping Env.np_cast_strict 1%positive [0; 1; 2; 3; 1] true m w).
Proof.
  intros m m' w.
  assert (Hb : run_build (GroupsSequence [ints [1; 2]; ints [2; 3]]) 1
               = (Ok tt, Builder m [Warning (PyInt 2) 1])) by reflexivity.
  assert (Hp : m ≡ₚ m') by exact (Permutation_app_comm [(1, 1); (2, 1)] [(3, 2)]).
  assert (Hw : heap w !! 1%positive = Some (Array int8 [5%nat] [0; 0; 0; 0; 0]))
    by reflexivity.
  split; [exact Hb|]. split; [exact Hp|]. split; [exact Hw|].
  pose proof (pass_order_is_irrelevant (raw := Z) (affine_t := unit) (fields_t := unit)
                Env.np_cast_strict _ _ _ _ _ m' Hb Hp) as [Hone Hsame].
  split; [exact Hone|].
  exact (Hsame 1%positive [0; 1; 2; 3; 1] true w int8 [5%nat] [0; 0; 0; 0; 0] Hw).
Defined.

Lemma input_untouched_and_metadata_carried_witness :
  ∃ new_img w',
    Env.run (DsegImage Env.img) (GroupsMapping [(PyInt 5, ints [0; 17])]) None 1 true None
            Env.vol = (Ok new_img, w') ∧
    (∀ l c, heap Env.vol !! l = Some c → heap w' !! l = Some c) ∧
    (∀ new_img0, Ok new_img = Ok new_img0 →
       ∃ img h m ws,
         load Env.nib_load (DsegImage Env.img) = Ok img ∧
         heap Env.vol !! header_ref img = Some (HeaderObj h) ∧
         run_build (GroupsMapping [(PyInt 5, ints [0; 17])]) 1 = (Ok tt, Builder m ws) ∧
         affine new_img0 = affine img ∧
         heap w' !! header_ref new_img0
         = Some (HeaderObj (Header (select_dtype None (needed_max m true)) (fields h))) ∧
         heap Env.vol !! dataobj new_img0 = None ∧
         heap Env.vol !! header_ref new_img0 = None).
Proof.
  eexists _, _. split; [exact run_example|].
  exact (input_untouched_and_metadata_carried Env.to_int32 Env.sample_of
           Env.np_cast_strict Env.nib_load _ _ _ _ _ _ _ _ _ run_example).
Defined.




(** The end-to-end case: labels 17 and 53 become region 1, the rest stays
    background. *)
Example end_to_end :
  Env.run (DsegImage Env.img) (GroupsMapping [(PyInt 1, ints [17; 53])]) None 1 true None
          (Env.volume [0; 17; 53; 53; 0; 17])
  = (Ok (result_image (Env.volume [0; 17; 53; 53; 0; 17]) Env.img),
     result_world None (Env.volume [0; 17; 53; 53; 0; 17]) Env.img [6%nat]
                  (Header (dtype_other "float32") tt) [] int8 [0; 1; 1; 1; 0; 1]).
Proof.
  apply (combine_completes _ _ _ _ _ _ _ _ _ _ _ _ _
           [0; 17; 53; 53; 0; 17] _ [(17, 1); (53, 1)]).
  constructor; try reflexivity.
  eexists. split; reflexivity.
Qed.

(** An explicit int8 with the new label 200: the call raises when numpy
    refuses the value, and stores -56 when numpy wraps it around. *)
Example explicit_dtype_is_not_validated :
  (Env.run (DsegImage Env.img) (GroupsMapping [(PyInt 200, ints [17])]) None 1 true
           (Some int8) Env.vol).1 = Raise OverflowError ∧
  combine_dseg_labels (fields_t := unit) Env.to_int32 Env.sample_of Env.np_cast_wrap
    Env.nib_load (DsegImage Env.img) (GroupsMapping [(PyInt 200, ints [17])]) None 1 true
    (Some int8) Env.vol
  = (Ok (result_image Env.vol Env.img),
     result_world None Env.vol Env.img [6%nat] (Header (dtype_other "float32") tt)
                  [] int8 [0; -56; 0; 0; 0; 0]).
Proof.
  split; [by vm_compute|].
  apply (combine_completes _ _ _ _ _ _ _ _ _ _ _ _ _
           [0; 17; 53; 0; 4; 16777216] _ [(17, 200)]).
  constructor; try reflexivity.
  eexists. split; reflexivity.
Qed.

(** * Further properties *)

(** ** The automatic dtype and the labels it has to hold *)

Lemma select_dtype_holds (m : dict) preserve_zero v :
  v ∈ dict_values m → -128 ≤ v → v ≤ 2147483647 →
  ∃ lo hi, iinfo (select_dtype None (needed_max m preserve_zero)) = Some (lo, hi) ∧
           lo ≤ v ∧ v ≤ hi.
Proof.
  intros Hv Hlo Hhi.
  assert (Hmax : v ≤ needed_max m preserve_zero).
  { pose proof (max_new_spec m) as H. destruct m as [|p m].
    - by apply elem_of_nil in Hv.
    - destruct H as [_ H]. specialize (H v Hv). unfold needed_max. lia. }
  unfold select_dtype.
  destruct (Z.leb_spec (needed_max m preserve_zero) 127);
    [|destruct (Z.leb_spec (needed_max m preserve_zero) 32767)];
    eexists _, _; (split; [reflexivity|]); lia.
Qed.

(** The automatic dtype can hold every new label of the mapping that lies
    between -128 and 2147483647. *)
Theorem automatic_dtype_holds_the_labels (m : dict) preserve_zero v :
  v ∈ dict_values m → -128 ≤ v → v ≤ 2147483647 →
  ∃ lo hi, iinfo (select_dtype None (needed_max m preserve_zero)) = Some (lo, hi) ∧
           lo ≤ v ∧ v ≤ hi.
Proof. apply select_dtype_holds. Qed.

Lemma automatic_dtype_holds_the_labels_witness :
  100 ∈ dict_values [(17, 100); (53, -3)] ∧ -128 ≤ 100 ∧ 100 ≤ 2147483647 ∧
  ∃ lo hi, iinfo (select_dtype None (needed_max [(17, 100); (53, -3)] true)) = Some (lo, hi) ∧
           lo ≤ 100 ∧ 100 ≤ hi.
Proof.
  assert (H1 : 100 ∈ dict_values [(17, 100); (53, -3)]) by (vm_compute; left).
  assert (H2 : -128 ≤ 100) by (vm_compute; discriminate).
  assert (H3 : 100 ≤ 2147483647) by (vm_compute; discriminate).
  split; [exact H1|]. split; [exact H2|]. split; [exact H3|].
  exact (automatic_dtype_holds_the_labels _ true 100 H1 H2 H3).
Defined.

(** ** The labels the sequence form hands out *)

Lemma for_each_invariant_in {S A} (P : S → Prop) (xs : list A) (body : A → M S unit) s :
  (∀ x s, x ∈ xs → P s → P (body x s).2) → P s → P (for_each xs body s).2.
Proof.
  revert s. induction xs as [|x xs IH]; intros s Hbody Hs; simpl; [done|].
  unfold bind. pose proof (Hbody x s ltac:(left) Hs) as Hx.
  destruct (body x s) as [[[]|e] s1]; simpl in *; [|done].
  apply IH; [|done]. intros y s' Hy. apply Hbody. by right.
Qed.

Lemma enumerate_from_index {A} i (xs : list A) idx x :
  (idx, x) ∈ enumerate_from i xs → i ≤ idx < i + Z.of_nat (length xs).
Proof.
  revert i. induction xs as [|y xs IH]; intros i; cbn [enumerate_from length].
  - by intros ?%elem_of_nil.
  - intros [[= -> ->]|Hin%IH]%elem_of_cons; lia.
Qed.

Lemma dict_set_values k v (d : dict) u :
  u ∈ dict_values (dict_set k v d) → u = v ∨ u ∈ dict_values d.
Proof.
  unfold dict_values. induction d as [|[k' v'] d IH]; cbn [dict_set].
  - rewrite fmap_cons. cbn [snd]. intros [->|?%elem_of_nil]%elem_of_cons; [by left | done].
  - destruct (Z.eqb k k'); rewrite !fmap_cons; cbn [snd];
      rewrite !elem_of_cons; intuition.
Qed.

Lemma sequence_values_in_range start_label groups v :
  v ∈ dict_values (mapping (run_build (GroupsSequence groups) start_label).2) →
  start_label ≤ v ∧ v < start_label + Z.of_nat (length groups).
Proof.
  revert v.
  change (∀ v, v ∈ dict_values (mapping (run_build (GroupsSequence groups) start_label).2) →
               start_label ≤ v < start_label + Z.of_nat (length groups))
    with ((λ b, ∀ v, v ∈ dict_values (mapping b) →
                     start_label ≤ v < start_label + Z.of_nat (length groups))
            (run_build (GroupsSequence groups) start_label).2).
  unfold run_build. cbn [build_mapping]. unfold build_from_sequence.
  apply for_each_invariant_in; [|by intros v ?%elem_of_nil].
  intros [idx grp] b Hin%enumerate_from_index Hb.
  apply (for_each_invariant
           (λ b, ∀ v, v ∈ dict_values (mapping b) →
                      start_label ≤ v < start_label + Z.of_nat (length groups)));
    [|done].
  intros lab b2 Hb2. unfold bind, gets, lift, warnings_warn, set_mapping, modify.
  destruct (py_int lab) as [z|]; [|done].
  destruct (dict_get z (mapping b2)); [done|]. cbn [snd mapping].
  intros v [->|Hv]%dict_set_values; [lia | by apply Hb2].
Qed.

(** Whatever the labels and however the construction ends, the new labels
    of the sequence form are [start_label], ..., [start_label + n - 1] for
    [n] groups. *)
Theorem sequence_new_labels_are_in_range start_label groups v :
  v ∈ dict_values (mapping (run_build (GroupsSequence groups) start_label).2) →
  start_label ≤ v ∧ v < start_label + Z.of_nat (length groups).
Proof. apply sequence_values_in_range. Qed.

Lemma sequence_new_labels_are_in_range_witness :
  2 ∈ dict_values (mapping (run_build (GroupsSequence [ints [1; 2]; ints [2; 3]]) 1).2) ∧
  1 ≤ 2 ∧ 2 < 1 + Z.of_nat (length [ints [1; 2]; ints [2; 3]]).
Proof.
  assert (H : 2 ∈ dict_values
                (mapping (run_build (GroupsSequence [ints [1; 2]; ints [2; 3]]) 1).2))
    by (vm_compute; right; right; left).
  split; [exact H|].
  exact (sequence_new_labels_are_in_range 1 _ 2 H).
Defined.

(** ** When the sequence form raises *)




(** ** The labels of a group as a set *)

Lemma first_group_ext l (groups groups' : list (list Z)) :
  Forall2 (λ g g', ∀ l, l ∈ g ↔ l ∈ g') groups groups' →
  first_group l groups = first_group l groups'.
Proof.
  unfold first_group. induction 1 as [|g g' groups groups' Hg _ IH]; [done|].
  cbn [list_find]. rewrite (decide_ext (l ∈ g) (l ∈ g')) by apply Hg.
  destruct (decide (l ∈ g')); [done|].
  destruct (list_find _ groups) as [[j x]|], (list_find _ groups') as [[j' x']|];
    cbn in *; congruence.
Qed.

Lemma dict_elem_get k v (m : dict) :
  NoDup (dict_keys m) → (k, v) ∈ m ↔ dict_get k m = Some v.
Proof.
  unfold dict_keys. induction m as [|[k' v'] m IH]; cbn [dict_get].
  - intros _. split; [by intros ?%elem_of_nil | done].
  - rewrite fmap_cons. cbn [fst]. intros [Hk Hnd]%NoDup_cons.
    rewrite elem_of_cons. destruct (Z.eqb_spec k k') as [->|Hne].
    + split; [|intros [= ->]; by left].
      intros [[= ->]|Hin]; [done|]. destruct Hk.
      apply list_elem_of_fmap. by exists (k', v).
    + rewrite <- (IH Hnd). split; [|by right]. intros [[= -> ->]|?]; done.
Qed.

(** Two mappings that look up alike hold the same pairs. *)
Lemma dict_ext_Permutation (m m' : dict) :
  NoDup (dict_keys m) → NoDup (dict_keys m') →
  (∀ l, dict_get l m = dict_get l m') → m ≡ₚ m'.
Proof.
  intros Hm Hm' Hget. apply NoDup_Permutation.
  - by apply (NoDup_fmap_1 fst).
  - by apply (NoDup_fmap_1 fst).
  - intros [k v]. by rewrite !dict_elem_get, Hget.
Qed.

Lemma max_new_Permutation (m m' : dict) : m ≡ₚ m' → max_new m = max_new m'.
Proof.
  intros Hp. pose proof (max_new_spec m) as H. pose proof (max_new_spec m') as H'.
  destruct m as [|p m], m' as [|p' m'].
  - done.
  - by apply Permutation_nil_l in Hp.
  - by apply Permutation_nil_r in Hp.
  - destruct H as [Hin Hub], H' as [Hin' Hub'].
    assert (Hv : dict_values (p :: m) ≡ₚ dict_values (p' :: m'))
      by (unfold dict_values; by rewrite Hp).
    rewrite Hv in Hin. rewrite <- Hv in Hin'.
    specialize (Hub _ Hin'). specialize (Hub' _ Hin). lia.
Qed.

(** Two lists of groups that hold, position by position, the same labels
    (in any order, with any repetition) build mappings with the same
    pairs. *)
Lemma sequence_mappings_agree start_label groups groups' zgroups zgroups' :
  Forall2 (Forall2 coerces) groups zgroups →
  Forall2 (Forall2 coerces) groups' zgroups' →
  Forall2 (λ g g', ∀ l, l ∈ g ↔ l ∈ g') zgroups zgroups' →
  mapping (run_build (GroupsSequence groups) start_label).2
  ≡ₚ mapping (run_build (GroupsSequence groups') start_label).2 ∧
  ∀ l, dict_get l (mapping (run_build (GroupsSequence groups) start_label).2)
       = dict_get l (mapping (run_build (GroupsSequence groups') start_label).2).
Proof.
  intros Hz Hz' Hsets.
  assert (Hget : ∀ l,
    dict_get l (mapping (run_build (GroupsSequence groups) start_label).2)
    = dict_get l (mapping (run_build (GroupsSequence groups') start_label).2)).
  { intros l. unfold run_build. cbn [build_mapping].
    rewrite (build_from_sequence_first_wins _ _ zgroups) by done.
    rewrite (build_from_sequence_first_wins _ _ zgroups') by done.
    cbn [snd]. rewrite !first_wins_get. cbn [mapping dict_get].
    unfold sequence_claims. rewrite !sequence_claims_from_get.
    by rewrite (first_group_ext l _ _ Hsets). }
  split; [|exact Hget].
  apply dict_ext_Permutation; [apply run_build_NoDup.. | exact Hget].
Qed.

Lemma dict_get_values k v (m : dict) : dict_get k m = Some v → v ∈ dict_values m.
Proof.
  unfold dict_values. induction m as [|[k' v'] m IH]; cbn [dict_get]; [done|].
  rewrite fmap_cons. cbn [snd]. destruct (Z.eqb k k').
  - intros [= ->]. left.
  - intros H. right. auto.
Qed.

(** ** Whole calls *)

Section Calls.

Context {raw affine_t fields_t : Type}.
Variable to_int32 : raw → Z.
Variable sample_of : dtype → Z → raw.
Variable np_cast : dtype → Z → option Z.
Variable nib_load : string → result (@image affine_t).

Abbreviation world := (@world raw affine_t fields_t).
Abbreviation combine :=
  (combine_dseg_labels (raw := raw) (fields_t := fields_t)
     to_int32 sample_of np_cast nib_load).

(** In the output of a call that returns, a voxel whose converted value
    has an entry in the mapping holds the new label of that entry as the
    output dtype stores it; the one exception is the value 0 when zeros
    are preserved. *)
Theorem mapped_voxels_get_the_new_label dseg_input groups output_path start_label
    pz out_dtype (w w' : world) new_img :
  combine dseg_input groups output_path start_label pz out_dtype w = (Ok new_img, w') →
  ∃ shape data m ws d out,
    input_voxels to_int32 sample_of nib_load dseg_input w shape data ∧
    run_build groups start_label = (Ok tt, Builder m ws) ∧
    output_voxels new_img w' d shape out ∧
    ∀ i x v, data !! i = Some x → dict_get x m = Some v → x ≠ 0 ∨ pz = false →
             ∃ c, np_cast d v = Some c ∧ out !! i = Some c.
Proof.
  intros Hrun. apply combine_voxels in Hrun
    as (shape & data & m & ws & d & out & Hin & Hb & _ & Hout & _ & Hvox).
  exists shape, data, m, ws, d, out. split_and!; try done.
  intros i x v Hx Hv Hnz. specialize (Hvox i x Hx). rewrite Hv in Hvox.
  destruct (Z.eqb_spec x 0) as [->|_]; [|done].
  destruct Hnz as [?| ->]; done.
Qed.

(** Every voxel of the output of a call that returns is 0 or a new label
    of the mapping as the output dtype stores it. *)
Theorem output_is_background_or_a_new_label dseg_input groups output_path start_label
    pz out_dtype (w w' : world) new_img :
  combine dseg_input groups output_path start_label pz out_dtype w = (Ok new_img, w') →
  ∃ shape m ws d out,
    run_build groups start_label = (Ok tt, Builder m ws) ∧
    output_voxels new_img w' d shape out ∧
    ∀ i o, out !! i = Some o →
           o = 0 ∨ ∃ v, v ∈ dict_values m ∧ np_cast d v = Some o.
Proof.
  intros Hrun. apply combine_voxels in Hrun
    as (shape & data & m & ws & d & out & Hin & Hb & _ & Hout & Hlen & Hvox).
  exists shape, m, ws, d, out. split_and!; try done.
  intros i o Ho.
  destruct (lookup_lt_is_Some_2 data i) as [x Hx].
  { rewrite <- Hlen. by eapply lookup_lt_Some. }
  specialize (Hvox i x Hx).
  destruct (dict_get x m) as [v|] eqn:Hv; [|left; congruence].
  destruct (Z.eqb x 0 && pz); [left; congruence|].
  destruct Hvox as (c & Hc & Hoc). right. exists v.
  split; [by eapply dict_get_values | congruence].
Qed.

(** A call that returns has written one file, at [output_path] and holding
    the returned image, when [output_path] is a non-empty string, and no
    file when it is [None] or empty. *)
Theorem a_returning_call_writes_its_output_path dseg_input groups output_path start_label
    pz out_dtype (w w' : world) new_img :
  combine dseg_input groups output_path start_label pz out_dtype w = (Ok new_img, w') →
  saved w' = saved w ++ match output_path with
                        | Some path => if String.eqb path "" then [] else [(path, new_img)]
                        | None => []
                        end.
Proof.
  intros Hrun. apply combine_Ok_inv in Hrun
    as (img & shape & data & h & m & ws & d & out & _ & -> & ->).
  done.
Qed.

(** The image a call returns has a voxel array of the input's shape and
    size, and a header of its own whose data type is the dtype of that
    array. *)
Theorem returned_image_is_consistent dseg_input groups output_path start_label
    pz out_dtype (w w' : world) new_img :
  combine dseg_input groups output_path start_label pz out_dtype w = (Ok new_img, w') →
  ∃ shape data d out h,
    input_voxels to_int32 sample_of nib_load dseg_input w shape data ∧
    output_voxels new_img w' d shape out ∧
    length out = length data ∧
    heap w' !! header_ref new_img = Some (HeaderObj h) ∧
    data_dtype h = d ∧
    dataobj new_img ≠ header_ref new_img.
Proof.
  intros Hrun. pose proof Hrun as Hrun0. apply combine_voxels in Hrun
    as (shape & data & m & ws & d & out & Hin & Hb & Hd & Hout & Hlen & _).
  apply combine_Ok_inv in Hrun0
    as (img & shape' & data' & h & m' & ws' & d' & out' & Hc & -> & ->).
  destruct Hc as [_ _ _ Hb' Hd' _]. rewrite Hb in Hb'. injection Hb' as <- <-.
  exists shape, data, d, out, (Header d' (fields h)). split_and!; try done.
  - unfold result_world, result_image. cbn [heap header_ref]. apply lookup_insert_eq.
  - cbn [data_dtype]. congruence.
  - unfold result_image. cbn [dataobj header_ref].
    intros Heq. by apply (proj2 (hdr_loc_fresh w)).
Qed.



(** *** Label order inside a group *)

(** For the sequence form only the set of labels of each group counts:
    when two lists of groups hold, position by position, the same labels
    (in any order, with any repetition), a call on the second returns the
    image a call on the first returns and leaves the same objects and
    files. *)
Theorem group_labels_count_as_sets dseg_input groups groups' zgroups zgroups' output_path
    start_label pz out_dtype (w w1 : world) new_img :
  Forall2 (Forall2 coerces) groups zgroups →
  Forall2 (Forall2 coerces) groups' zgroups' →
  Forall2 (λ g g', ∀ l, l ∈ g ↔ l ∈ g') zgroups zgroups' →
  combine dseg_input (GroupsSequence groups) output_path start_label pz out_dtype w
  = (Ok new_img, w1) →
  ∃ w2,
    combine dseg_input (GroupsSequence groups') output_path start_label pz out_dtype w
    = (Ok new_img, w2) ∧
    heap w2 = heap w1 ∧ saved w2 = saved w1.
Proof.
  intros Hz Hz' Hsets Hrun.
  apply combine_Ok_inv in Hrun
    as (img & shape & data & h & m & ws & d & out & Hc & -> & ->).
  destruct Hc as [Hload Hvox Hh Hbuild Hd Hpass].
  destruct (sequence_mappings_agree start_label _ _ _ _ Hz Hz' Hsets) as [Hperm _].
  rewrite Hbuild in Hperm. cbn [snd mapping] in Hperm.
  destruct (run_build (GroupsSequence groups') start_label) as [r' [m' ws']] eqn:Hbuild'.
  cbn [snd mapping] in Hperm.
  assert (r' = Ok tt) as ->.
  { pose proof (build_from_sequence_first_wins start_label _ _ (Builder [] []) Hz') as H.
    unfold run_build in Hbuild'. cbn [build_mapping] in Hbuild'. congruence. }
  assert (Hnd : NoDup (dict_keys m)).
  { pose proof (run_build_NoDup (GroupsSequence groups) start_label) as H.
    by rewrite Hbuild in H. }
  eexists. split.
  - apply (combine_completes _ _ _ _ _ _ _ _ _ _ _ img shape data h m' ws' d out).
    constructor; try done.
    + rewrite Hd. unfold needed_max. by rewrite (max_new_Permutation m m').
    + by rewrite <- (relabel_Permutation np_cast d data pz m m' Hperm Hnd).
  - done.
Qed.

(** *** Labels the automatic dtype holds *)

Section Fits.

(** numpy stores a Python [int] that is in the range of an integer dtype
    as it is. *)
Hypothesis np_cast_fits :
  ∀ d lo hi z, iinfo d = Some (lo, hi) → lo ≤ z → z ≤ hi → np_cast d z = Some z.





End Fits.

End Calls.

(** * The command line (lines 16-72) *)

(** [str.lower()] on ASCII text *)
Definition lower_char (c : ascii) : ascii :=
  let n := nat_of_ascii c in
  if (65 <=? n)%nat && (n <=? 90)%nat then ascii_of_nat (n + 32) else c.

Fixpoint str_lower (s : string) : string :=
  match s with
  | EmptyString => EmptyString
  | String c s' => String (lower_char c) (str_lower s')
  end.

(** The dict of [_dtype_from_str]. *)
Definition dtype_names : list (string * dtype) :=
  [("int8", int8); ("int16", int16); ("int32", int32); ("int64", int64)].

Fixpoint names_get (s : string) (names : list (string * dtype)) : option dtype :=
  match names with
  | [] => None
  | (n, d) :: names' => if String.eqb s n then Some d else names_get s names'
  end.

(** What [parser.parse_args()] returns. *)
Module Args.
Record namespace : Set := Namespace {
  dseg : string;
  groups : string;
  output : option string;
  start_label : Z;
  preserve_zero : bool;
  out_dtype : option string
}.
End Args.

Section CommandLine.

Context {raw affine_t fields_t : Type}.
Variable to_int32 : raw → Z.
Variable sample_of : dtype → Z → raw.
Variable np_cast : dtype → Z → option Z.
Variable nib_load : string → result (@image affine_t).

(** [np.dtype(s)] *)
Variable np_dtype : string → result dtype.
(** [os.path.exists(path)] and [open(path, "r").read()] *)
Variable path_exists : string → bool.
Variable read_text : string → result string.
(** [json.loads] and [ast.literal_eval], on texts that denote groupings *)
Variable json_loads : string → result groups_arg.
Variable literal_eval : string → result groups_arg.

(** Lines 16-27.  [except Exception] catches whatever [json.loads]
    raises. *)
Definition _parse_groups_arg (arg : string) : result groups_arg :=
  match (if path_exists arg then read_text arg else Ok arg) with
  | Ok txt =>
      match json_loads txt with
      | Ok parsed => Ok parsed
      | Raise _ => literal_eval txt
      end
  | Raise e => Raise e
  end.

(** Lines 29-34.  The default [np.dtype(s)] of [mapping.get] is evaluated
    before the lookup. *)
Definition _dtype_from_str (s : option string) : result (option dtype) :=
  match s with
  | None => Ok None
  | Some s =>
      let s := str_lower s in
      match np_dtype s with
      | Ok default =>
          Ok (Some (match names_get s dtype_names with
                    | Some d => d
                    | None => default
                    end))
      | Raise e => Raise e
      end
  end.

(** The objects of the process and the lines printed. *)
Record process : Type :=
  Process { objects : @world raw affine_t fields_t; stdout : list string }.

Definition on_objects {A} (m : M (@world raw affine_t fields_t) A) : M process A :=
  λ p, let '(r, w) := m (objects p) in (r, Process w (stdout p)).

Definition print (line : string) : M process unit :=
  modify (λ p, Process (objects p) (stdout p ++ [line])).

(** Lines 51-72, from the parsed arguments on. *)
Definition _cli (args : Args.namespace) : M process (@image affine_t) :=
  let* groups := lift (_parse_groups_arg (Args.groups args)) in
  let* out_dtype := lift (_dtype_from_str (Args.out_dtype args)) in
  let* result :=
    on_objects (combine_dseg_labels to_int32 sample_of np_cast nib_load
                  (DsegPath (Args.dseg args)) groups (Args.output args)
                  (Args.start_label args) (Args.preserve_zero args) out_dtype) in
  let* _ :=
    match Args.output args with
    | Some path =>
        if String.eqb path "" then print "Combined labels (no output file)."
        else print ("Saved combined dseg to " +:+ path)
    | None => print "Combined labels (no output file)."
    end in
  ret result.

(** ** Properties of the command line *)

Lemma lower_char_idem c : lower_char (lower_char c) = lower_char c.
Proof. by destruct c as [[] [] [] [] [] [] [] []]. Qed.

Lemma str_lower_idem s : str_lower (str_lower s) = str_lower s.
Proof.
  induction s as [|c s IH]; [done|]. cbn [str_lower]. by rewrite lower_char_idem, IH.
Qed.

(** The letter case of a dtype name is ignored, and for a name that is
    int8, int16, int32 or int64 in some letter case the answer is that
    dtype whenever [np.dtype] accepts the lower-case name. *)
Theorem dtype_name_case_is_ignored s :
  _dtype_from_str (Some (str_lower s)) = _dtype_from_str (Some s) ∧
  ∀ d, (str_lower s, d) ∈ dtype_names → is_ok (np_dtype (str_lower s)) = true →
       _dtype_from_str (Some s) = Ok (Some d).
Proof.
  split.
  - unfold _dtype_from_str. by rewrite str_lower_idem.
  - intros d Hin Hok. unfold _dtype_from_str.
    destruct (np_dtype (str_lower s)) as [d0|]; [|done].
    unfold dtype_names in *.
    repeat (apply elem_of_cons in Hin as [[= -> ->]|Hin]; [done|]).
    by apply elem_of_nil in Hin.
Qed.

(** When the command returns it has printed one line: the "Saved" line
    with the output path exactly when the call wrote the returned image to
    that path, and the "no output file" line when nothing was written. *)
Theorem cli_reports_what_was_saved args p p' img :
  _cli args p = (Ok img, p') →
  (∃ path, Args.output args = Some path ∧ path ≠ "" ∧
           stdout p' = stdout p ++ ["Saved combined dseg to " +:+ path] ∧
           saved (objects p') = saved (objects p) ++ [(path, img)]) ∨
  ((Args.output args = None ∨ Args.output args = Some "") ∧
   stdout p' = stdout p ++ ["Combined labels (no output file)."] ∧
   saved (objects p') = saved (objects p)).
Proof.
  unfold _cli. intros Hrun.
  apply bind_Ok in Hrun as (g & p1 & Hg & Hrun). unfold lift in Hg. injection Hg as _ <-.
  apply bind_Ok in Hrun as (od & p1 & Hd & Hrun). unfold lift in Hd. injection Hd as _ <-.
  apply bind_Ok in Hrun as (res & p1 & Hcall & Hrun).
  unfold on_objects in Hcall.
  destruct (combine_dseg_labels _ _ _ _ _ _ _ _ _ _ (objects p)) as [r w1] eqn:Hcomb.
  injection Hcall as -> <-.
  apply combine_Ok_inv in Hcomb
    as (im & shape & data & h & m & ws & d & out & _ & -> & ->).
  apply bind_Ok in Hrun as ([] & p2 & Hprint & Hret).
  unfold ret in Hret. injection Hret as <- <-.
  unfold result_world, written in *. cbn [objects stdout saved] in *.
  destruct (Args.output args) as [path|].
  - destruct (String.eqb path "") eqn:Heq.
    + apply String.eqb_eq in Heq. subst path.
      right. unfold print, modify in Hprint. injection Hprint as <-.
      cbn [objects stdout saved]. split_and!; [by right | done | by rewrite app_nil_r].
    + apply String.eqb_neq in Heq.
      left. exists path. unfold print, modify in Hprint. injection Hprint as <-.
      cbn [objects stdout saved]. by split_and!.
  - right. unfold print, modify in Hprint. injection Hprint as <-.
    cbn [objects stdout saved]. split_and!; [by left | done | by rewrite app_nil_r].
Qed.


End CommandLine.

(** ** A concrete command line *)

Module CliEnv.

(** One loadable file, [dseg.nii.gz], holding the volume of [Env.vol]. *)
Definition nib_load (path : string) : result (@image unit) :=
  if String.eqb path "dseg.nii.gz" then Ok Env.img else Raise OSError.

Definition np_dtype (s : string) : result dtype :=
  match names_get s dtype_names with
  | Some d => Ok d
  | None => if String.eqb s "uint8" then Ok (dtype_other s) else Raise TypeError
  end.

Definition path_exists (path : string) : bool := String.eqb path "groups.json".

Definition read_text (path : string) : result string :=
  if String.eqb path "groups.json" then Ok "[[17, 53]]" else Raise OSError.

Definition json_loads (txt : string) : result groups_arg :=
  if String.eqb txt "[[17, 53]]" then Ok (GroupsSequence [ints [17; 53]])
  else Raise ValueError.

Definition literal_eval (txt : string) : result groups_arg :=
  if String.eqb txt "{1: [17, 53]}" then Ok (GroupsMapping [(PyInt 1, ints [17; 53])])
  else Raise ValueError.

Abbreviation cli :=
  (_cli (fields_t := unit) Env.to_int32 Env.sample_of Env.np_cast_strict nib_load
        np_dtype path_exists read_text json_loads literal_eval).

Definition start : @process Z unit unit := Process Env.vol [].

End CliEnv.


(** A call on [Env.vol] that writes its result. *)
Lemma run_example_saved :
  Env.run (DsegImage Env.img) (GroupsMapping [(PyInt 5, ints [0; 17])])
          (Some "out/roi.nii.gz") 1 false None Env.vol
  = (Ok (result_image Env.vol Env.img),
     result_world (Some "out/roi.nii.gz") Env.vol Env.img [6%nat]
                  (Header (dtype_other "float32") tt) [] int8 [5; 5; 0; 5; 0; 0]).
Proof.
  apply (combine_completes _ _ _ _ _ _ _ _ _ _ _ _ _
           [0; 17; 53; 0; 4; 16777216] _ [(0, 5); (17, 5)]).
  constructor; try reflexivity.
  eexists. split; reflexivity.
Qed.

Lemma group_labels_count_as_sets_witness :
  ∃ new_img w1,
    Forall2 (Forall2 coerces) [ints [17; 53]; ints [53; 4]] [[17; 53]; [53; 4]] ∧
    Forall2 (Forall2 coerces) [ints [53; 17; 53]; ints [4; 53]] [[53; 17; 53]; [4; 53]] ∧
    Forall2 (λ g g' : list Z, ∀ l, l ∈ g ↔ l ∈ g') [[17; 53]; [53; 4]] [[53; 17; 53]; [4; 53]] ∧
    Env.run (DsegImage Env.img) (GroupsSequence [ints [17; 53]; ints [53; 4]]) None 1 true
            None Env.vol = (Ok new_img, w1) ∧
    ∃ w2,
      Env.run (DsegImage Env.img) (GroupsSequence [ints [53; 17; 53]; ints [4; 53]]) None 1
              true None Env.vol = (Ok new_img, w2) ∧
      heap w2 = heap w1 ∧ saved w2 = saved w1.
Proof.
  assert (H1 : Forall2 (Forall2 coerces) [ints [17; 53]; ints [53; 4]] [[17; 53]; [53; 4]])
    by (repeat constructor).
  assert (H2 : Forall2 (Forall2 coerces) [ints [53; 17; 53]; ints [4; 53]]
                 [[53; 17; 53]; [4; 53]]) by (repeat constructor).
  assert (H3 : Forall2 (λ g g' : list Z, ∀ l, l ∈ g ↔ l ∈ g')
                 [[17; 53]; [53; 4]] [[53; 17; 53]; [4; 53]]).
  { constructor; [|constructor; [|constructor]];
      intros l; rewrite !elem_of_cons, !elem_of_nil; tauto. }
  assert (H4 : Env.run (DsegImage Env.img) (GroupsSequence [ints [17; 53]; ints [53; 4]])
                 None 1 true None Env.vol
               = (Ok (result_image Env.vol Env.img),
                  result_world None Env.vol Env.img [6%nat]
                    (Header (dtype_other "float32") tt) [Warning (PyInt 53) 1] int8
                    [0; 1; 1; 0; 2; 0])).
  { apply (combine_completes _ _ _ _ _ _ _ _ _ _ _ _ _
             [0; 17; 53; 0; 4; 16777216] _ [(17, 1); (53, 1); (4, 2)]).
    constructor; try reflexivity. eexists. split; reflexivity. }
  eexists _, _. split; [exact H1|]. split; [exact H2|]. split; [exact H3|].
  split; [exact H4|].
  exact (group_labels_count_as_sets Env.to_int32 Env.sample_of Env.np_cast_strict
           Env.nib_load _ _ _ _ _ _ _ _ _ _ _ _ H1 H2 H3 H4).
Defined.

Lemma mapped_voxels_get_the_new_label_witness :
  ∃ new_img w',
    Env.run (DsegImage Env.img) (GroupsMapping [(PyInt 5, ints [0; 17])])
            (Some "out/roi.nii.gz") 1 false None Env.vol = (Ok new_img, w') ∧
    ∃ shape data m ws d out,
      input_voxels Env.to_int32 Env.sample_of Env.nib_load (DsegImage Env.img) Env.vol
                   shape data ∧
      run_build (GroupsMapping [(PyInt 5, ints [0; 17])]) 1 = (Ok tt, Builder m ws) ∧
      output_voxels new_img w' d shape out ∧
      ∀ i x v, data !! i = Some x → dict_get x m = Some v → x ≠ 0 ∨ false = false →
               ∃ c, Env.np_cast_strict d v = Some c ∧ out !! i = Some c.
Proof.
  eexists _, _. split; [exact run_example_saved|].
  exact (mapped_voxels_get_the_new_label Env.to_int32 Env.sample_of Env.np_cast_strict
           Env.nib_load _ _ _ _ _ _ _ _ _ run_example_saved).
Defined.

Lemma output_is_background_or_a_new_label_witness :
  ∃ new_img w',
    Env.run (DsegImage Env.img) (GroupsMapping [(PyInt 5, ints [0; 17])])
            (Some "out/roi.nii.gz") 1 false None Env.vol = (Ok new_img, w') ∧
    ∃ shape m ws d out,
      run_build (GroupsMapping [(PyInt 5, ints [0; 17])]) 1 = (Ok tt, Builder m ws) ∧
      output_voxels new_img w' d shape out ∧
      ∀ i o, out !! i = Some o →
             o = 0 ∨ ∃ v, v ∈ dict_values m ∧ Env.np_cast_strict d v = Some o.
Proof.
  eexists _, _. split; [exact run_example_saved|].
  exact (output_is_background_or_a_new_label Env.to_int32 Env.sample_of
           Env.np_cast_strict Env.nib_load _ _ _ _ _ _ _ _ _ run_example_saved).
Defined.

Lemma a_returning_call_writes_its_output_path_witness :
  ∃ new_img w',
    Env.run (DsegImage Env.img) (GroupsMapping [(PyInt 5, ints [0; 17])])
            (Some "out/roi.nii.gz") 1 false None Env.vol = (Ok new_img, w') ∧
    saved w' = saved Env.vol ++ [("out/roi.nii.gz", new_img)].
Proof.
  eexists _, _. split; [exact run_example_saved|].
  exact (a_returning_call_writes_its_output_path Env.to_int32 Env.sample_of
           Env.np_cast_strict Env.nib_load _ _ _ _ _ _ _ _ _ run_example_saved).
Defined.

Lemma returned_image_is_consistent_witness :
  ∃ new_img w',
    Env.run (DsegImage Env.img) (GroupsMapping [(PyInt 5, ints [0; 17])])
            (Some "out/roi.nii.gz") 1 false None Env.vol = (Ok new_img, w') ∧
    ∃ shape data d out h,
      input_voxels Env.to_int32 Env.sample_of Env.nib_load (DsegImage Env.img) Env.vol
                   shape data ∧
      output_voxels new_img w' d shape out ∧
      length out = length data ∧
      heap w' !! header_ref new_img = Some (HeaderObj h) ∧
      data_dtype h = d ∧
      dataobj new_img ≠ header_ref new_img.
Proof.
  eexists _, _. split; [exact run_example_saved|].
  exact (returned_image_is_consistent Env.to_int32 Env.sample_of Env.np_cast_strict
           Env.nib_load _ _ _ _ _ _ _ _ _ run_example_saved).
Defined.




Lemma dtype_name_case_is_ignored_witness :
  _dtype_from_str CliEnv.np_dtype (Some (str_lower "INT16"))
  = _dtype_from_str CliEnv.np_dtype (Some "INT16") ∧
  (str_lower "INT16", int16) ∈ dtype_names ∧
  is_ok (CliEnv.np_dtype (str_lower "INT16")) = true ∧
  _dtype_from_str CliEnv.np_dtype (Some "INT16") = Ok (Some int16).
Proof.
  assert (H1 : (str_lower "INT16", int16) ∈ dtype_names) by (vm_compute; right; left).
  assert (H2 : is_ok (CliEnv.np_dtype (str_lower "INT16")) = true) by reflexivity.
  split; [exact (proj1 (dtype_name_case_is_ignored CliEnv.np_dtype "INT16"))|].
  split; [exact H1|]. split; [exact H2|].
  exact (proj2 (dtype_name_case_is_ignored CliEnv.np_dtype "INT16") int16 H1 H2).
Defined.

Lemma cli_reports_what_was_saved_witness :
  let args := Args.Namespace "dseg.nii.gz" "groups.json" (Some "out/roi.nii.gz") 1 true
                             (Some "INT16") in
  ∃ img p',
    CliEnv.cli args CliEnv.start = (Ok img, p') ∧
    ((∃ path, Args.output args = Some path ∧ path ≠ "" ∧
              stdout p' = stdout CliEnv.start ++ ["Saved combined dseg to " +:+ path] ∧
              saved (objects p') = saved (objects CliEnv.start) ++ [(path, img)]) ∨
     ((Args.output args = None ∨ Args.output args = Some "") ∧
      stdout p' = stdout CliEnv.start ++ ["Combined labels (no output file)."] ∧
      saved (objects p') = saved (objects CliEnv.start))).
Proof.
  intros args.
  destruct (CliEnv.cli args CliEnv.start) as [[img|e] p'] eqn:H.
  - exists img, p'. split; [reflexivity|].
    exact (cli_reports_what_was_saved Env.to_int32 Env.sample_of Env.np_cast_strict
             CliEnv.nib_load CliEnv.np_dtype CliEnv.path_exists CliEnv.read_text
             CliEnv.json_loads CliEnv.literal_eval args CliEnv.start p' img H).
  - vm_compute in H. discriminate H.
Defined.

